(** * User activity service: cache-aside retrieval and engagement metrics

    A shallow embedding of [UserActivityService] (TypeScript) and the
    properties its specification states about it.

    Conventions of the embedding:
    - a JavaScript string is a [string] holding its UTF-8 bytes;
    - an integral JavaScript number is a [Z], a fractional one a [Q]
      (exact arithmetic; the rounding of IEEE doubles is not modelled);
    - an object used as a dictionary is a [gmap] keyed by strings, an
      object whose property order matters is an association list in
      [Object.entries] order;
    - the collaborators (Redis client, Axios client, logger, clock) are
      operations of a free monad [Prog], interpreted over an abstract
      world. *)

From Stdlib Require Import ZArith QArith Qpower Qminmax Qround String Ascii List.
From Stdlib Require Import Permutation Sorted DecimalString DecimalPos DecimalZ.
From Stdlib Require Import OrderedTypeEx Lia.
From stdpp Require Import base option list sorting gmap strings.

Set Default Proof Using "Type".
Local Open Scope string_scope.
Local Open Scope list_scope.
Local Open Scope Z_scope.

(** ** The JavaScript runtime the service relies on

    Built-ins whose result depends on the host (time zone, collation
    locale, parser of date strings, [Math.log]) are fields of [Runtime]. *)

Class Runtime : Type := {
  (** [new Date(s).getTime()]; [None] is the invalid date ([NaN]). *)
  Date_parse : string → option Z;
  (** [d.toISOString()] of a time value inside the valid range. *)
  Date_toISOString : Z → string;
  (** ECMAScript [LocalTZA(t, true)]: offset of local time at UTC time [t]. *)
  LocalTZA : Z → Z;
  (** ECMAScript [UTC(t)]: the UTC time value of local time [t]. *)
  UTC : Z → Z;
  (** [Math.log]. *)
  Math_log : Q → Q;
  (** Sign of [a.localeCompare(b)]. *)
  localeCompare : string → string → comparison;
}.

(** What the sort of the cache key needs of [localeCompare]: that it is
    a consistent comparator, antisymmetric and transitive. *)
Class ConsistentCollation (R : Runtime) : Prop := {
  localeCompare_antisym : ∀ a b, localeCompare b a = CompOpp (localeCompare a b);
  localeCompare_trans : ∀ a b c,
    localeCompare a b = Lt → localeCompare b c = Lt → localeCompare a c = Lt;
}.

(** ** Values *)

(** The values a filter field holds: [string | number | undefined]. *)
Inductive JsValue : Type :=
| JsUndefined
| JsString (s : string)
| JsNumber (n : Z).

#[global] Instance JsValue_eq_dec : EqDecision JsValue.
Proof. solve_decision. Defined.

(** [value !== undefined] *)
Definition is_defined (v : JsValue) : Prop := v ≠ JsUndefined.

#[global] Instance is_defined_dec v : Decision (is_defined v).
Proof. unfold is_defined. apply _. Defined.

(** Truthiness of [if (value)]. *)
Definition truthy (v : JsValue) : bool :=
  match v with
  | JsUndefined => false
  | JsString s => negb (String.eqb s "")
  | JsNumber n => negb (n =? 0)%Z
  end.

(** [String(n)] of an integer (below 1e21 in magnitude, where JavaScript
    still prints every digit). *)
Definition Number_toString (n : Z) : string :=
  NilZero.string_of_int (Z.to_int n).

(** The string conversion of a template literal, [`${value}`]. *)
Definition String_of (v : JsValue) : string :=
  match v with
  | JsUndefined => "undefined"
  | JsString s => s
  | JsNumber n => Number_toString n
  end.

(** [Record<string, any>]: own enumerable properties in [Object.entries]
    order; property names are pairwise distinct. *)
Abbreviation JsObject := (list (string * JsValue)).

(** [parts.join(sep)] *)
Fixpoint join (sep : string) (parts : list string) : string :=
  match parts with
  | [] => ""
  | [p] => p
  | p :: rest => p +:+ sep +:+ join sep rest
  end.

(** ** Base64 ([Buffer.from(s).toString('base64')]) *)

Definition base64_alphabet : string :=
  "ABCDEFGHIJKLMNOPQRSTUVWXYZabcdefghijklmnopqrstuvwxyz0123456789+/".

Definition base64_digit (n : N) : ascii :=
  default "="%char (String.get (N.to_nat n) base64_alphabet).

Fixpoint base64_encode (bytes : list N) : string :=
  match bytes with
  | [] => ""
  | [a] =>
      String (base64_digit (N.shiftr a 2))
        (String (base64_digit (N.shiftl (N.land a 3) 4)) "==")
  | [a; b] =>
      String (base64_digit (N.shiftr a 2))
        (String (base64_digit (N.lor (N.shiftl (N.land a 3) 4) (N.shiftr b 4)))
           (String (base64_digit (N.shiftl (N.land b 15) 2)) "="))
  | a :: b :: c :: rest =>
      String (base64_digit (N.shiftr a 2))
        (String (base64_digit (N.lor (N.shiftl (N.land a 3) 4) (N.shiftr b 4)))
           (String (base64_digit (N.lor (N.shiftl (N.land b 15) 2) (N.shiftr c 6)))
              (String (base64_digit (N.land c 63)) (base64_encode rest))))
  end.

Definition Buffer_toBase64 (s : string) : string :=
  base64_encode (map N_of_ascii (list_ascii_of_string s)).

(** ** Cache keys *)

(** [entries.sort(cmp)]: the sort of arrays is stable; with a consistent
    comparator its result is the stable sorted arrangement, computed here
    by insertion. *)
Fixpoint insert_sorted {A} (cmp : A → A → comparison) (x : A) (l : list A) : list A :=
  match l with
  | [] => [x]
  | y :: l' =>
      match cmp x y with
      | Gt => y :: insert_sorted cmp x l'
      | _ => x :: l
      end
  end.

Definition Array_sort {A} (cmp : A → A → comparison) (l : list A) : list A :=
  foldr (insert_sorted cmp) [] l.

Section CacheKey.
Context `{R : Runtime}.

Definition compareEntries (a b : string * JsValue) : comparison :=
  localeCompare a.1 b.1.

(** The entries that survive [filter(([, value]) => value !== undefined)],
    sorted by key. *)
Definition sortedEntries (object : JsObject) : JsObject :=
  Array_sort compareEntries (filter (λ e, is_defined e.2) object).

Definition filterString (entries : JsObject) : string :=
  join "&" (map (λ e, e.1 +:+ "=" +:+ String_of e.2) entries).

Definition generateCacheKey
    (prefix userId : string) (filter : option JsObject) : string :=
  let key := "user-activity:" +:+ userId +:+ ":" +:+ prefix in
  match filter with
  | Some f =>
      if (0 <? length f)%nat then
        let sorted := sortedEntries f in
        if (0 <? length sorted)%nat then
          key +:+ ":" +:+ Buffer_toBase64 (filterString sorted)
        else key
      else key
  | None => key
  end.
End CacheKey.

(** ** Data model *)




(** [UserActivity] as it arrives from the remote source: [response.data]
    is cast, not validated, so [type] is whatever string was received. *)
Record UserActivity : Type := {
  act_id : string;
  act_userId : string;
  act_type : string;
  act_timestamp : string;
  act_path : string;
  act_device : option string;
  act_durationSec : option Q;
  act_metadata : option JsObject;
}.

(** The value of an entry of [typeCounts]: a count, or the text that
    results from adding 1 to an inherited property (see [count_type]). *)
Inductive JsCount : Type :=
| CountNumber (n : nat)
| CountText.

#[global] Instance JsCount_eq_dec : EqDecision JsCount.
Proof. solve_decision. Defined.

Record EngagementMetrics : Type := {
  totalActivities : Z;
  activityByType : gmap string JsCount;
  averageDurationSec : Z;
  mostActiveHour : Z;
  mostActiveDay : Z;
  daysSinceLastActivity : Z;
  engagementScore : Z;
}.

(** ** The metrics aggregator *)

(** [Math.round]: to the nearest integer, halves towards +infinity. *)
Definition Math_round (x : Q) : Z := Qfloor (x + (1 # 2)).

(** [Math.max(...counts)] over counts that are never negative. *)
Definition Math_max (counts : list nat) : nat := max_list counts.

(** [counts.indexOf(x)]: index of the first element equal to [x], or -1. *)
Fixpoint indexOf_from (i : Z) (counts : list nat) (x : nat) : Z :=
  match counts with
  | [] => -1
  | y :: rest => if decide (y = x) then i else indexOf_from (i + 1) rest x
  end.

Definition indexOf (counts : list nat) (x : nat) : Z := indexOf_from 0 counts x.

(** Names a fresh object inherits from [Object.prototype]. *)
Definition Object_prototype_names : list string :=
  ["constructor"; "__defineGetter__"; "__defineSetter__"; "hasOwnProperty";
   "__lookupGetter__"; "__lookupSetter__"; "isPrototypeOf";
   "propertyIsEnumerable"; "toString"; "valueOf"; "__proto__";
   "toLocaleString"].

(** [typeCounts[t] = (typeCounts[t] || 0) + 1] on an object literal.
    An own count is incremented and a name never seen starts at 1. A
    name inherited from [Object.prototype] reads as a function or object,
    to which [+ 1] appends text: the assignment then stores that text as
    an own property, except for [__proto__], whose setter ignores it. *)
Definition count_type (typeCounts : gmap string JsCount) (t : string)
    : gmap string JsCount :=
  match typeCounts !! t with
  | Some (CountNumber n) => <[t := CountNumber (n + 1)]> typeCounts
  | Some CountText => <[t := CountText]> typeCounts
  | None =>
      if decide (t = "__proto__") then typeCounts
      else if decide (t ∈ Object_prototype_names)
      then <[t := CountText]> typeCounts
      else <[t := CountNumber 1]> typeCounts
  end.

Definition msPerHour : Z := 3600000.
Definition msPerDay : Z := 1000 * 60 * 60 * 24.

(** The counters of the loop in [processActivities]. *)
Record Counters : Type := {
  totalDuration : Q;
  hourCounts : list nat;
  dayCounts : list nat;
  typeCounts : gmap string JsCount;
  latestActivityDate : Z;
}.

Definition initialCounters : Counters := {|
  totalDuration := 0;
  hourCounts := replicate 24 0%nat;
  dayCounts := replicate 7 0%nat;
  typeCounts := ∅;
  latestActivityDate := 0;
|}.

Section Aggregator.
Context `{R : Runtime}.

Definition LocalTime (t : Z) : Z := t + LocalTZA t.

(** [d.getHours()] and [d.getDay()] of a valid date with time value [t]. *)
Definition getHours (t : Z) : Z := (LocalTime t / msPerHour) mod 24.
Definition getDay (t : Z) : Z := (LocalTime t / msPerDay + 4) mod 7.

(** The body of [activities.forEach]. An invalid date compares false
    with every date, and its [getHours()] is [NaN], which is no index of
    the bucket arrays. *)
Definition tally (c : Counters) (activity : UserActivity) : Counters :=
  let typeCounts' := count_type (typeCounts c) (act_type activity) in
  let totalDuration' :=
    match act_durationSec activity with
    | Some d => if Qeq_bool d 0 then totalDuration c else (totalDuration c + d)%Q
    | None => totalDuration c
    end in
  match Date_parse (act_timestamp activity) with
  | Some activityDate => {|
      totalDuration := totalDuration';
      hourCounts := alter S (Z.to_nat (getHours activityDate)) (hourCounts c);
      dayCounts := alter S (Z.to_nat (getDay activityDate)) (dayCounts c);
      typeCounts := typeCounts';
      latestActivityDate :=
        if latestActivityDate c <? activityDate then activityDate
        else latestActivityDate c;
    |}
  | None => {|
      totalDuration := totalDuration';
      hourCounts := hourCounts c;
      dayCounts := dayCounts c;
      typeCounts := typeCounts';
      latestActivityDate := latestActivityDate c;
    |}
  end.

Definition calculateEngagementScore (metrics : EngagementMetrics) : Z :=
  let activityScore := (Math_log (inject_Z (totalActivities metrics + 1)) * 10)%Q in
  let recencyFactor :=
    Qmax 0 (1 - inject_Z (daysSinceLastActivity metrics) / 30)%Q in
  let durationFactor := Qmin 1 (inject_Z (averageDurationSec metrics) / 300)%Q in
  let activityTypes := Z.of_nat (size (activityByType metrics)) in
  let diversityFactor := Qmin 1 (inject_Z activityTypes / 5)%Q in
  let score :=
    (activityScore * 0.4 + recencyFactor * 30 + durationFactor * 15
     + diversityFactor * 15)%Q in
  Z.min 100 (Z.max 0 (Math_round score)).

(** [processActivities]; [currentDate] is the time value of the
    [new Date()] that the non-empty branch reads. *)
Definition processActivities
    (currentDate : Z) (activities : list UserActivity) : EngagementMetrics :=
  let metrics := {|
    totalActivities := Z.of_nat (length activities);
    activityByType := ∅;
    averageDurationSec := 0;
    mostActiveHour := 0;
    mostActiveDay := 0;
    daysSinceLastActivity := 0;
    engagementScore := 0;
  |} in
  if (length activities =? 0)%nat then metrics
  else
    let c := foldl tally initialCounters activities in
    let timeDiff := currentDate - latestActivityDate c in
    let metrics' := {|
      totalActivities := totalActivities metrics;
      activityByType := typeCounts c;
      averageDurationSec :=
        if (0 <? length activities)%nat
        then Math_round (totalDuration c / inject_Z (Z.of_nat (length activities)))
        else 0;
      mostActiveHour := indexOf (hourCounts c) (Math_max (hourCounts c));
      mostActiveDay := indexOf (dayCounts c) (Math_max (dayCounts c));
      daysSinceLastActivity := timeDiff / msPerDay;
      engagementScore := engagementScore metrics;
    |} in
    {| totalActivities := totalActivities metrics';
       activityByType := activityByType metrics';
       averageDurationSec := averageDurationSec metrics';
       mostActiveHour := mostActiveHour metrics';
       mostActiveDay := mostActiveDay metrics';
       daysSinceLastActivity := daysSinceLastActivity metrics';
       engagementScore := calculateEngagementScore metrics' |}.
End Aggregator.

(** ** Effects: errors, log records and collaborator calls *)

(** What a rejected promise or a [throw] carries. *)
Inductive JsError : Type :=
| AxiosError (message : string) (status : option Z)
    (statusText : option string) (url : option string)
| Error (message : string)
| ThrownValue (text : string).

Inductive LogValue : Type :=
| VString (s : string)
| VNumber (n : Z)
| VUndefined
| VError (e : JsError)
| VObject (o : option JsObject).

Abbreviation LogContext := (list (string * LogValue)).

#[global] Instance JsError_eq_dec : EqDecision JsError.
Proof. solve_decision. Defined.

#[global] Instance LogValue_eq_dec : EqDecision LogValue.
Proof. solve_decision. Defined.

Inductive Level : Type := LDebug | LInfo | LWarn | LError.

Record AxiosRequestConfig : Type := {
  params : option JsObject;
  timeout : Z;
}.

Record ApiConfig : Type := {
  basePath : string;
  timeoutMs : Z;
  apiKey : option string;
}.

Record CacheConfig : Type := {
  activityTtlSec : Z;
  metricsTtlSec : Z;
}.

(** The configuration held by a service instance; its clients and its
    logger are the operations of [Prog]. *)
Record UserActivityService : Type := {
  apiConfig : ApiConfig;
  cacheConfig : CacheConfig;
}.

(** Programs over the collaborators. A call node holds the continuation
    that receives the settled promise: [inl] a rejection, [inr] a value. *)
Inductive Prog (A : Type) : Type :=
| Ret (a : A)
| Throw (e : JsError)
| Log (level : Level) (message : string) (context : LogContext) (k : Prog A)
| NewDate (k : Z → Prog A)
| RedisGet (key : string) (k : JsError + option string → Prog A)
| RedisSetex (key : string) (seconds : Z) (value : string)
    (k : JsError + unit → Prog A)
| AxiosGet (url : string) (config : AxiosRequestConfig)
    (k : JsError + list UserActivity → Prog A).

Arguments Ret {A} a.
Arguments Throw {A} e.
Arguments Log {A} level message context k.
Arguments NewDate {A} k.
Arguments RedisGet {A} key k.
Arguments RedisSetex {A} key seconds value k.
Arguments AxiosGet {A} url config k.

Fixpoint bind {A B} (p : Prog A) (f : A → Prog B) : Prog B :=
  match p with
  | Ret a => f a
  | Throw e => Throw e
  | Log l m c k => Log l m c (bind k f)
  | NewDate k => NewDate (λ t, bind (k t) f)
  | RedisGet key k => RedisGet key (λ r, bind (k r) f)
  | RedisSetex key s v k => RedisSetex key s v (λ r, bind (k r) f)
  | AxiosGet url cfg k => AxiosGet url cfg (λ r, bind (k r) f)
  end.

#[global] Instance Prog_ret : MRet Prog := @Ret.
#[global] Instance Prog_bind : MBind Prog := λ A B f p, bind p f.

(** [try { p } catch (error) { handler error }] *)
Fixpoint try_catch {A} (p : Prog A) (handler : JsError → Prog A) : Prog A :=
  match p with
  | Ret a => Ret a
  | Throw e => handler e
  | Log l m c k => Log l m c (try_catch k handler)
  | NewDate k => NewDate (λ t, try_catch (k t) handler)
  | RedisGet key k => RedisGet key (λ r, try_catch (k r) handler)
  | RedisSetex key s v k => RedisSetex key s v (λ r, try_catch (k r) handler)
  | AxiosGet url cfg k => AxiosGet url cfg (λ r, try_catch (k r) handler)
  end.

(** [await promise]: a rejection is thrown at the [await]. *)
Definition await {A} (settled : JsError + A) : Prog A :=
  match settled with
  | inl e => Throw e
  | inr a => Ret a
  end.

Definition logger (level : Level) (message : string) (context : LogContext)
    : Prog unit :=
  Log level message context (Ret tt).

(** [JSON.stringify] and [JSON.parse(text) as T]. The data of this
    service (records, arrays and metrics made of strings and numbers)
    always serialises. Parsing throws on malformed text; [None] is a falsy
    parsed value ([null], [false], [0] or the empty string), which is no
    [T]. *)
Class Json (T : Type) : Type := {
  JSON_stringify : T → string;
  JSON_parse : string → JsError + option T;
}.

(** ** The service *)

Section Service.
Context `{R : Runtime}.
Context `{JA : Json (list UserActivity)} `{JM : Json EngagementMetrics}.
Variable this : UserActivityService.

Definition getFromCache {T} `{Json T} (key : string) : Prog (option T) :=
  try_catch
    (cachedData ← RedisGet key await;
     match cachedData with
     | None => Ret None
     | Some text =>
         if String.eqb text "" then Ret None
         else await (JSON_parse text)
     end)
    (λ error,
       logger LWarn "Cache retrieval failed, falling back to API"
         [("key", VString key); ("error", VError error)];;
       Ret None).

Definition setInCache {T} `{Json T} (key : string) (data : T) (ttlSeconds : Z)
    : Prog unit :=
  try_catch
    (let serializedData := JSON_stringify data in
     RedisSetex key ttlSeconds serializedData await)
    (λ error,
       logger LWarn "Failed to cache data"
         [("key", VString key); ("error", VError error)]).

Definition option_value {A} (f : A → LogValue) (o : option A) : LogValue :=
  from_option f VUndefined o.

Definition handleError (message : string) (error : JsError)
    (context : LogContext) : Prog unit :=
  match error with
  | AxiosError msg status statusText url =>
      logger LError message
        (context ++ [("status", option_value VNumber status);
                     ("statusText", option_value VString statusText);
                     ("url", option_value VString url);
                     ("error", VString msg)])
  | Error msg => logger LError message (context ++ [("error", VString msg)])
  | ThrownValue text =>
      logger LError message (context ++ [("error", VString text)])
  end.

Definition getUserActivity (userId : string) (filter : option JsObject)
    : Prog (list UserActivity) :=
  try_catch
    (let cacheKey := generateCacheKey "activity" userId filter in
     cachedData ← getFromCache cacheKey;
     match cachedData with
     | Some cached =>
         logger LDebug "Retrieved user activity from cache"
           [("userId", VString userId)];;
         Ret cached
     | None =>
         let endpoint :=
           basePath (apiConfig this) +:+ "/users/" +:+ userId +:+ "/activity" in
         let requestConfig :=
           {| params := filter; timeout := timeoutMs (apiConfig this) |} in
         logger LDebug "Fetching user activity from API"
           [("userId", VString userId); ("filter", VObject filter)];;
         activities ← AxiosGet endpoint requestConfig await;
         setInCache cacheKey activities (activityTtlSec (cacheConfig this));;
         Ret activities
     end)
    (λ error,
       handleError "Failed to fetch user activity" error
         [("userId", VString userId)];;
       Throw error).

(** [d.toISOString()]: a date outside the range of time values is
    invalid, and [toISOString] throws a [RangeError] on it. *)
Definition toISOString (t : Z) : Prog string :=
  if Z.abs t <=? 8640000000000000 then Ret (Date_toISOString t)
  else Throw (Error "Invalid time value").

(** [timeRangeInDays?: number] as a property value. *)
Definition optional_number (n : option Z) : JsValue :=
  from_option JsNumber JsUndefined n.

(** The filter of the time range (lines 118 to 124): a lower bound
    [timeRangeInDays] calendar days before now, when the range is truthy. *)
Definition timeRangeFilter (timeRangeInDays : option Z) : Prog JsObject :=
  if truthy (optional_number timeRangeInDays) then
    now ← NewDate Ret;
    let startDate :=
      UTC (LocalTime now - default 0 timeRangeInDays * msPerDay) in
    iso ← toISOString startDate;
    Ret [("startDate", JsString iso)]
  else Ret [].

Definition calculateEngagementMetrics
    (userId : string) (timeRangeInDays : option Z) : Prog EngagementMetrics :=
  try_catch
    (let cacheKey :=
       generateCacheKey "metrics" userId
         (Some [("timeRangeInDays", optional_number timeRangeInDays)]) in
     cachedMetrics ← getFromCache cacheKey;
     match cachedMetrics with
     | Some cached =>
         logger LDebug "Retrieved engagement metrics from cache"
           [("userId", VString userId)];;
         Ret cached
     | None =>
         filter ← timeRangeFilter timeRangeInDays;
         activities ← getUserActivity userId (Some filter);
         currentDate ← NewDate Ret;
         let metrics := processActivities currentDate activities in
         setInCache cacheKey metrics (metricsTtlSec (cacheConfig this));;
         Ret metrics
     end)
    (λ error,
       handleError "Failed to calculate engagement metrics" error
         [("userId", VString userId)];;
       Throw error).
End Service.

(** ** Running programs against the collaborators *)

Inductive Event : Type :=
| EvLog (level : Level) (message : string) (context : LogContext)
| EvRedisGet (key : string)
| EvRedisSetex (key : string) (seconds : Z) (value : string)
| EvAxiosGet (url : string) (config : AxiosRequestConfig).

(** How a call ends: [return] or [throw]. *)
Inductive Outcome (A : Type) : Type :=
| Returned (a : A)
| Threw (e : JsError).

Arguments Returned {A} a.
Arguments Threw {A} e.

(** The world behind the clients: what each call answers and how it
    changes the world. Reading the clock leaves the world as it is. *)
Record Collaborators (W : Type) : Type := {
  clock : W → Z;
  redis_get : string → W → (JsError + option string) * W;
  redis_setex : string → Z → string → W → (JsError + unit) * W;
  axios_get : string → AxiosRequestConfig → W
              → (JsError + list UserActivity) * W;
}.

Arguments clock {W} _ _.
Arguments redis_get {W} _ _ _.
Arguments redis_setex {W} _ _ _ _ _.
Arguments axios_get {W} _ _ _ _.

Section Run.
Context {W : Type} (C : Collaborators W).

(** One call, from start to end. *)
Fixpoint run {A} (p : Prog A) (w : W) : Outcome A * W * list Event :=
  match p with
  | Ret a => (Returned a, w, [])
  | Throw e => (Threw e, w, [])
  | Log l m c k =>
      let '(o, w', t) := run k w in (o, w', EvLog l m c :: t)
  | NewDate k => run (k (clock C w)) w
  | RedisGet key k =>
      let '(r, w1) := redis_get C key w in
      let '(o, w', t) := run (k r) w1 in (o, w', EvRedisGet key :: t)
  | RedisSetex key s v k =>
      let '(r, w1) := redis_setex C key s v w in
      let '(o, w', t) := run (k r) w1 in (o, w', EvRedisSetex key s v :: t)
  | AxiosGet url cfg k =>
      let '(r, w1) := axios_get C url cfg w in
      let '(o, w', t) := run (k r) w1 in (o, w', EvAxiosGet url cfg :: t)
  end.

(** One node of a call: the unit by which concurrent calls interleave. *)
Definition step {A} (p : Prog A) (w : W) : Prog A * W * list Event :=
  match p with
  | Ret a => (Ret a, w, [])
  | Throw e => (Throw e, w, [])
  | Log l m c k => (k, w, [EvLog l m c])
  | NewDate k => (k (clock C w), w, [])
  | RedisGet key k =>
      let '(r, w1) := redis_get C key w in (k r, w1, [EvRedisGet key])
  | RedisSetex key s v k =>
      let '(r, w1) := redis_setex C key s v w in (k r, w1, [EvRedisSetex key s v])
  | AxiosGet url cfg k =>
      let '(r, w1) := axios_get C url cfg w in (k r, w1, [EvAxiosGet url cfg])
  end.

Definition step_at {A} (i : nat) (tasks : list (Prog A)) (w : W)
    : list (Prog A) * W * list Event :=
  match tasks !! i with
  | Some p => let '(p', w', t) := step p w in (<[i := p']> tasks, w', t)
  | None => (tasks, w, [])
  end.

(** Calls in flight together: the schedule names, node by node, the
    call that advances next. *)
Fixpoint run_pool {A} (schedule : list nat) (tasks : list (Prog A)) (w : W)
    : list (Prog A) * W * list Event :=
  match schedule with
  | [] => (tasks, w, [])
  | i :: rest =>
      let '(tasks1, w1, t1) := step_at i tasks w in
      let '(tasks2, w2, t2) := run_pool rest tasks1 w1 in
      (tasks2, w2, t1 ++ t2)
  end.

Definition settled {A} (p : Prog A) : option (Outcome A) :=
  match p with
  | Ret a => Some (Returned a)
  | Throw e => Some (Threw e)
  | _ => None
  end.

(** The results of [Promise.allSettled], once every call has settled. *)
Definition allSettled {A} (tasks : list (Prog A)) : option (list (Outcome A)) :=
  mapM settled tasks.
End Run.

(** ** Bulk processing *)

(** [[...new Set(userIds)]]: first occurrences, in order. *)
Definition Array_from_Set (userIds : list string) : list string :=
  foldl (λ seen userId, if decide (userId ∈ seen) then seen else seen ++ [userId])
    [] userIds.

Section Bulk.
Context `{R : Runtime}.
Context `{JA : Json (list UserActivity)} `{JM : Json EngagementMetrics}.
Context {W : Type} (C : Collaborators W).
Variable this : UserActivityService.

(** [results.forEach]: a fulfilled result enters the map, a rejected one
    is logged with its reason and the number of unique ids. *)
Fixpoint forEach_result (userIdsCount : Z)
    (results : list (Outcome (string * EngagementMetrics)))
    (metricsMap : gmap string EngagementMetrics)
    : Prog (gmap string EngagementMetrics) :=
  match results with
  | [] => Ret metricsMap
  | Returned (userId, metrics) :: rest =>
      forEach_result userIdsCount rest (<[userId := metrics]> metricsMap)
  | Threw reason :: rest =>
      logger LError "Failed to process user metrics"
        [("error", VError reason); ("userIdsCount", VNumber userIdsCount)];;
      forEach_result userIdsCount rest metricsMap
  end.

(** The calls that [uniqueUserIds.map(async ...)] starts. *)
Definition bulkTasks (uniqueUserIds : list string) (timeRangeInDays : option Z)
    : list (Prog (string * EngagementMetrics)) :=
  map (λ userId,
         metrics ← calculateEngagementMetrics this userId timeRangeInDays;
         Ret (userId, metrics))
    uniqueUserIds.

(** What follows [await Promise.allSettled(...)]. *)
Definition bulkCollect (uniqueUserIds : list string)
    (results : list (Outcome (string * EngagementMetrics)))
    : Prog (gmap string EngagementMetrics) :=
  let userIdsCount := Z.of_nat (length uniqueUserIds) in
  metricsMap ← forEach_result userIdsCount results ∅;
  logger LInfo "Bulk processed user metrics"
    [("requested", VNumber userIdsCount);
     ("processed", VNumber (Z.of_nat (size metricsMap)))];;
  Ret metricsMap.

(** [bulkProcessUserMetrics] under a schedule of its concurrent calls;
    [None] when the schedule ends before every call has settled. *)
Definition bulkProcessUserMetrics
    (userIds : list string) (timeRangeInDays : option Z)
    (schedule : list nat) (w : W)
    : option (Outcome (gmap string EngagementMetrics) * W * list Event) :=
  let uniqueUserIds := Array_from_Set userIds in
  let '(tasks, w1, t1) :=
    run_pool C schedule (bulkTasks uniqueUserIds timeRangeInDays) w in
  results ← allSettled tasks;
  let '(o, w2, t2) := run C (bulkCollect uniqueUserIds results) w1 in
  Some (o, w2, t1 ++ t2).
End Bulk.

(** ** Cache invalidation *)

(** The commands on the keyspace that [invalidateUserCache] sends. *)
Inductive RedisCommand : Type :=
| KEYS (pattern : string)
| DEL (keys : list string).

(** What the store answers to them: the keys that match a pattern, the
    number of keys deleted, or a rejection. *)
Record Keyspace (W : Type) : Type := {
  redis_keys : string → W → (JsError + list string) * W;
  redis_del : list string → W → (JsError + Z) * W;
}.

Arguments redis_keys {W} _ _ _.
Arguments redis_del {W} _ _ _.

(** What [invalidateUserCache] leaves in its trace: a command on the
    keyspace or an event of the service. *)
Inductive KeyspaceEvent : Type :=
| Command (c : RedisCommand)
| Service (ev : Event).

(** [`user-activity:${userId}:*`] *)
Definition invalidationPattern (userId : string) : string :=
  "user-activity:" +:+ userId +:+ ":*".

Section Invalidation.
Context {W : Type} (C : Collaborators W) (K : Keyspace W).

(** The [catch] block: log through [handleError], then rethrow. *)
Definition invalidate_catch (userId : string) (error : JsError) (w : W)
    (trace : list KeyspaceEvent) : Outcome unit * W * list KeyspaceEvent :=
  let '(_, w', logs) :=
    run C (handleError "Failed to invalidate user cache" error
             [("userId", VString userId)]) w in
  (Threw error, w', trace ++ map Service logs).

Definition invalidateUserCache (userId : string) (w : W)
    : Outcome unit * W * list KeyspaceEvent :=
  let pattern := invalidationPattern userId in
  let '(answer, w1) := redis_keys K pattern w in
  match answer with
  | inl error => invalidate_catch userId error w1 [Command (KEYS pattern)]
  | inr keys =>
      if (0 <? length keys)%nat then
        let '(deleted, w2) := redis_del K keys w1 in
        match deleted with
        | inl error =>
            invalidate_catch userId error w2
              [Command (KEYS pattern); Command (DEL keys)]
        | inr _ =>
            (Returned (), w2,
             [Command (KEYS pattern); Command (DEL keys);
              Service (EvLog LInfo "Invalidated user cache"
                         [("userId", VString userId);
                          ("keysCount", VNumber (Z.of_nat (length keys)))])])
        end
      else
        (Returned (), w1,
         [Command (KEYS pattern);
          Service (EvLog LDebug "No cache to invalidate"
                     [("userId", VString userId)])])
  end.
End Invalidation.

(** The commands of a trace, in order. *)
Definition commandsOf (trace : list KeyspaceEvent) : list RedisCommand :=
  omap (λ ev, match ev with Command c => Some c | Service _ => None end) trace.


(** ** The retry strategy of the factory *)

(** [retryStrategy(times)] of the options of the Redis client; [random]
    is what [Math.random()] returns, a number from 0 up to but not
    including 1. *)
Definition retryStrategy (random : Q) (times : Z) : Z :=
  let maxRetryMs := 30 * 1000 in
  let delay :=
    Z.min maxRetryMs (Qfloor (random * 100 + Qpower 2 times * 50)) in
  delay.

(** ** A sample host and sample collaborators

    Used by the examples below: a host in the UTC time zone whose
    collation orders strings by their bytes, a store held in memory and a
    remote source that answers from a table. *)
Module Sample.

Definition digit_of (c : ascii) : option Z :=
  let n := Z.of_N (N_of_ascii c) in
  if (48 <=? n) && (n <=? 57) then Some (n - 48) else None.

Fixpoint number_of (acc : Z) (s : string) : option Z :=
  match s with
  | EmptyString => Some acc
  | String c rest => d ← digit_of c; number_of (acc * 10 + d) rest
  end.

(** Days from 1970-01-01 to a civil date of the Gregorian calendar. *)
Definition days_from_civil (y m d : Z) : Z :=
  let y' := if m <=? 2 then y - 1 else y in
  let era := y' / 400 in
  let yoe := y' - era * 400 in
  let doy := (153 * (if 2 <? m then m - 3 else m + 9) + 2) / 5 + d - 1 in
  let doe := yoe * 365 + yoe / 4 - yoe / 100 + doy in
  era * 146097 + doe - 719468.

(** Parses [YYYY-MM-DDTHH:MM:SSZ]; any other text is an invalid date. *)
Definition parse_iso (s : string) : option Z :=
  if negb (String.eqb (substring 4 1 s) "-" && String.eqb (substring 7 1 s) "-"
           && String.eqb (substring 10 1 s) "T" && String.eqb (substring 13 1 s) ":"
           && String.eqb (substring 16 1 s) ":" && String.eqb (substring 19 1 s) "Z"
           && (String.length s =? 20)%nat)
  then None
  else
    y ← number_of 0 (substring 0 4 s);
    m ← number_of 0 (substring 5 2 s);
    d ← number_of 0 (substring 8 2 s);
    hh ← number_of 0 (substring 11 2 s);
    mm ← number_of 0 (substring 14 2 s);
    ss ← number_of 0 (substring 17 2 s);
    Some (days_from_civil y m d * msPerDay + hh * msPerHour + mm * 60000 + ss * 1000).

Definition pad (width : nat) (n : Z) : string :=
  let s := Number_toString n in
  String.concat "" (replicate (width - String.length s) "0") +:+ s.

(** Prints [YYYY-MM-DDTHH:MM:SS.sssZ] for years 0 to 9999. *)
Definition print_iso (t : Z) : string :=
  let z := t / msPerDay + 719468 in
  let era := z / 146097 in
  let doe := z - era * 146097 in
  let yoe := (doe - doe / 1460 + doe / 36524 - doe / 146096) / 365 in
  let doy := doe - (365 * yoe + yoe / 4 - yoe / 100) in
  let mp := (5 * doy + 2) / 153 in
  let d := doy - (153 * mp + 2) / 5 + 1 in
  let m := if mp <? 10 then mp + 3 else mp - 9 in
  let y := yoe + era * 400 + (if m <=? 2 then 1 else 0) in
  let ms := t mod msPerDay in
  pad 4 y +:+ "-" +:+ pad 2 m +:+ "-" +:+ pad 2 d +:+ "T"
  +:+ pad 2 (ms / msPerHour) +:+ ":" +:+ pad 2 (ms / 60000 mod 60) +:+ ":"
  +:+ pad 2 (ms / 1000 mod 60) +:+ "." +:+ pad 3 (ms mod 1000) +:+ "Z".

(** The natural logarithm by the series of [2 * artanh ((x-1)/(x+1))],
    cut after 40 terms: within 1e-8 of [ln x] for [1 <= x <= 10]. *)
Fixpoint artanh_series (n : nat) (y power : Q) (k : Z) : Q :=
  match n with
  | O => 0
  | S n' => (power / inject_Z k + artanh_series n' y (power * y * y) (k + 2))%Q
  end.

Definition log_series (x : Q) : Q :=
  let y := Qred ((x - 1) / (x + 1)) in
  Qred (2 * artanh_series 40 y y 1).

#[export] Instance host : Runtime := {|
  Date_parse := parse_iso;
  Date_toISOString := print_iso;
  LocalTZA := λ _, 0;
  UTC := λ t, t;
  Math_log := log_series;
  localeCompare := String.compare;
|}.

(** A store held in memory, which rejects every command while it is
    down, and a remote source that answers by URL. *)
Record World : Type := {
  store : gmap string string;
  redis_up : bool;
  now : Z;
  api : string → JsError + list UserActivity;
}.

Definition collaborators : Collaborators World := {|
  clock := now;
  redis_get key w :=
    if redis_up w then (inr (store w !! key), w)
    else (inl (Error "Connection is closed."), w);
  redis_setex key seconds value w :=
    if redis_up w
    then (inr tt, {| store := <[key := value]> (store w); redis_up := true;
                     now := now w; api := api w |})
    else (inl (Error "Connection is closed."), w);
  axios_get url config w := (api w url, w);
|}.

(** A stand-in for JSON: [show] prints a value, and the texts that
    parse are those of a table, besides [null]. *)
Definition table_json {T} (show : T → string) (table : list (string * T))
    : Json T := {|
  JSON_stringify := show;
  JSON_parse text :=
    if String.eqb text "null" then inr None
    else match List.find (λ e, String.eqb e.1 text) table with
         | Some e => inr (Some e.2)
         | None => inl (Error "Unexpected token in JSON")
         end;
|}.

Definition activity (id type timestamp : string) (durationSec : option Q)
    : UserActivity := {|
  act_id := id; act_userId := "user123"; act_type := type;
  act_timestamp := timestamp; act_path := "/products";
  act_device := Some "desktop"; act_durationSec := durationSec;
  act_metadata := None;
|}.

Definition mockActivities : list UserActivity :=
  [activity "activity1" "PAGE_VIEW" "2023-05-01T10:00:00Z" None;
   activity "activity2" "CLICK" "2023-05-01T10:05:00Z" None;
   activity "activity3" "VIDEO_PLAY" "2023-05-01T11:00:00Z" (Some 120%Q)].

Definition show_activities (activities : list UserActivity) : string :=
  "[" +:+ join "," (map act_id activities) +:+ "]".

Definition show_metrics (metrics : EngagementMetrics) : string :=
  "{total:" +:+ Number_toString (totalActivities metrics)
  +:+ ",score:" +:+ Number_toString (engagementScore metrics) +:+ "}".

#[export] Instance activities_json : Json (list UserActivity) :=
  table_json show_activities
    [(show_activities mockActivities, mockActivities); ("[]", [])].

Definition cachedMetrics : EngagementMetrics := {|
  totalActivities := 3;
  activityByType :=
    {[ "PAGE_VIEW" := CountNumber 1; "CLICK" := CountNumber 1;
       "VIDEO_PLAY" := CountNumber 1 ]};
  averageDurationSec := 40;
  mostActiveHour := 10;
  mostActiveDay := 1;
  daysSinceLastActivity := 5;
  engagementScore := 75;
|}.

#[export] Instance metrics_json : Json EngagementMetrics :=
  table_json show_metrics [(show_metrics cachedMetrics, cachedMetrics)].

Definition service : UserActivityService := {|
  apiConfig := {| basePath := "https://api.test.com"; timeoutMs := 1000;
                  apiKey := None |};
  cacheConfig := {| activityTtlSec := 60; metricsTtlSec := 300 |};
|}.

(** The remote source knows [user123] and [user3]; any other request
    fails. *)
Definition remote (url : string) : JsError + list UserActivity :=
  if String.eqb url "https://api.test.com/users/user123/activity"
  then inr mockActivities
  else if String.eqb url "https://api.test.com/users/user3/activity"
  then inr []
  else inl (AxiosError "Request failed with status code 404" (Some 404)
              (Some "Not Found") (Some url)).

Definition world (cached : list (string * string)) (up : bool) : World := {|
  store := list_to_map cached;
  redis_up := up;
  now := 1683021600000;
  api := remote;
|}.
End Sample.

(** ** What the specification says, in its own words *)

(** [a] sorts before [b]. *)
Definition before {A} (cmp : A → A → comparison) (a b : A) : Prop :=
  cmp a b = Lt.


Section Specification.
Context `{R : Runtime}.

(** The local hour and weekday of a record; none for a timestamp that
    does not parse. *)
Definition hourOf (activity : UserActivity) : option Z :=
  getHours <$> Date_parse (act_timestamp activity).

Definition dayOf (activity : UserActivity) : option Z :=
  getDay <$> Date_parse (act_timestamp activity).

(** The number of records that fall in hour bucket [h], in day bucket [d]. *)
Definition hourCount (h : Z) (activities : list UserActivity) : nat :=
  length (filter (λ a, hourOf a = Some h) activities).

Definition dayCount (d : Z) (activities : list UserActivity) : nat :=
  length (filter (λ a, dayOf a = Some d) activities).



(** The weighted sum of section 4.4, step 6. *)
Definition weightedSum
    (totalCount daysSinceLast averageDuration distinctKinds : Z) : Q :=
  let activityScore := (Math_log (inject_Z (totalCount + 1)) * 10)%Q in
  let recencyFactor := Qmax 0 (1 - inject_Z daysSinceLast / 30)%Q in
  let durationFactor := Qmin 1 (inject_Z averageDuration / 300)%Q in
  let diversityFactor := Qmin 1 (inject_Z distinctKinds / 5)%Q in
  (activityScore * 0.4 + recencyFactor * 30 + durationFactor * 15
   + diversityFactor * 15)%Q.


(** The key layout of section 4.1: ["<namespace>:<subjectId>:<tag>"],
    the tag segment left out when there is no tag. *)
Definition specifiedKey (namespace subjectId : string) (tag : option string)
    : string :=
  match tag with
  | Some t => namespace +:+ ":" +:+ subjectId +:+ ":" +:+ t
  | None => namespace +:+ ":" +:+ subjectId
  end.

(** The filter fields that survive: those whose value is present. *)
Definition survivingFields (object : option JsObject) : JsObject :=
  filter (λ e, is_defined e.2) (default [] object).
End Specification.

Section ServiceSpecification.
Context `{R : Runtime}.
Context `{JA : Json (list UserActivity)} `{JM : Json EngagementMetrics}.
Variable this : UserActivityService.

(** What the answer of the store to a read amounts to: a rejected
    command or a text that does not parse is a failure, a missing or
    empty text is absent. *)
Definition readAnswer {T} `{Json T} (answer : JsError + option string)
    : JsError + option T :=
  match answer with
  | inl e => inl e
  | inr None => inr None
  | inr (Some text) => if String.eqb text "" then inr None else JSON_parse text
  end.

(** A read fails when the store rejects the command or the text does
    not parse. *)
Definition readFailed {T} `{Json T} (answer : JsError + option string) : Prop :=
  (∃ e, answer = inl e)
  ∨ (∃ text e, answer = inr (Some text) ∧ text ≠ "" ∧ JSON_parse (T:=T) text = inl e).

(** The stored value a read yields: none when absent and none on failure. *)
Definition storedValue {T} `{Json T} (answer : JsError + option string)
    : option T :=
  match readAnswer answer with
  | inl _ => None
  | inr v => v
  end.

(** The request that fetches the records of a subject. *)
Definition activityEndpoint (userId : string) : string :=
  basePath (apiConfig this) +:+ "/users/" +:+ userId +:+ "/activity".

Definition activityRequest (filter : option JsObject) : AxiosRequestConfig :=
  {| params := filter; timeout := timeoutMs (apiConfig this) |}.

(** The computation behind the metrics cache: derive the filter, fetch
    the records, aggregate. *)
Definition computeMetrics (userId : string) (timeRangeInDays : option Z)
    : Prog EngagementMetrics :=
  filter ← timeRangeFilter timeRangeInDays;
  activities ← getUserActivity this userId (Some filter);
  currentDate ← NewDate Ret;
  Ret (processActivities currentDate activities).

(** The calls to the remote source and the writes to the store that a
    trace records, in order. *)
Definition axiosCalls (trace : list Event)
    : list (string * AxiosRequestConfig) :=
  omap (λ ev, match ev with EvAxiosGet url cfg => Some (url, cfg) | _ => None end)
    trace.

Definition cacheWrites (trace : list Event) : list (string * Z * string) :=
  omap (λ ev, match ev with
              | EvRedisSetex key seconds value => Some (key, seconds, value)
              | _ => None
              end)
    trace.

(** An error record that names the subject. *)
Definition errorLoggedFor (userId : string) (ev : Event) : Prop :=
  match ev with
  | EvLog LError _ context => ("userId", VString userId) ∈ context
  | _ => False
  end.

#[global] Instance errorLoggedFor_dec userId ev :
  Decision (errorLoggedFor userId ev).
Proof. destruct ev as [[] ? ?| | |]; simpl; apply _. Defined.

Definition warned (message : string) (trace : list Event) : Prop :=
  ∃ context, EvLog LWarn message context ∈ trace.

(** On every path of [p] that ends in a throw, an error record naming
    the subject is logged before the throw. *)
Fixpoint logsBeforeThrow (userId : string) {A} (p : Prog A) : Prop :=
  match p with
  | Ret _ => True
  | Throw _ => False
  | Log level message context k =>
      errorLoggedFor userId (EvLog level message context)
      ∨ logsBeforeThrow userId k
  | NewDate k => ∀ t, logsBeforeThrow userId (k t)
  | RedisGet _ k => ∀ r, logsBeforeThrow userId (k r)
  | RedisSetex _ _ _ k => ∀ r, logsBeforeThrow userId (k r)
  | AxiosGet _ _ k => ∀ r, logsBeforeThrow userId (k r)
  end.

(** Every value [p] returns is labelled with the subject. *)
Fixpoint returnsFor (userId : string) {A} (p : Prog (string * A)) : Prop :=
  match p with
  | Ret result => result.1 = userId
  | Throw _ => True
  | Log _ _ _ k => returnsFor userId k
  | NewDate k => ∀ t, returnsFor userId (k t)
  | RedisGet _ k => ∀ r, returnsFor userId (k r)
  | RedisSetex _ _ _ k => ∀ r, returnsFor userId (k r)
  | AxiosGet _ _ k => ∀ r, returnsFor userId (k r)
  end.

(** The state of a subject's call in the pool: what it returns is
    labelled with the subject, and a throw is still to be preceded by an
    error record, unless the record is in the trace already. *)
Definition tracked {A} (trace : list Event) (userId : string)
    (p : Prog (string * A)) : Prop :=
  returnsFor userId p
  ∧ (logsBeforeThrow userId p ∨ Exists (errorLoggedFor userId) trace).

(** The map that [results.forEach] builds. *)
Definition collected (results : list (Outcome (string * EngagementMetrics)))
    (metricsMap : gmap string EngagementMetrics)
    : gmap string EngagementMetrics :=
  foldl (λ m result,
           match result with
           | Returned (userId, metrics) => <[userId := metrics]> m
           | Threw _ => m
           end)
    metricsMap results.

(** A subject whose computation was rejected has no entry in the map
    and an error record in the trace; one whose computation was
    fulfilled is the subject its result names. *)
Definition accountedFor (metricsMap : gmap string EngagementMetrics)
    (trace : list Event) (userId : string)
    (result : Outcome (string * EngagementMetrics)) : Prop :=
  match result with
  | Returned (u, _) => u = userId
  | Threw _ =>
      metricsMap !! userId = None ∧ Exists (errorLoggedFor userId) trace
  end.
End ServiceSpecification.

(** ** Further notions of the aggregator *)

Section AggregatorNotions.
Context `{R : Runtime}.

(** The time value of a record; none for a timestamp that does not parse. *)
Definition timeOf (activity : UserActivity) : option Z :=
  Date_parse (act_timestamp activity).

(** The duration a record adds to the total: an absent duration and a
    duration of 0 add nothing. *)
Definition durationOf (activity : UserActivity) : Q :=
  default 0%Q (act_durationSec activity).

(** Counters that agree, the totals as rational numbers. *)
Definition sameCounters (c1 c2 : Counters) : Prop :=
  (totalDuration c1 == totalDuration c2)%Q
  ∧ hourCounts c1 = hourCounts c2
  ∧ dayCounts c1 = dayCounts c2
  ∧ typeCounts c1 = typeCounts c2
  ∧ latestActivityDate c1 = latestActivityDate c2.


(** The sum of the durations of the records. *)
Definition durationSum (activities : list UserActivity) : Q :=
  foldr (λ a total, (durationOf a + total)%Q) 0%Q activities.

(** The latest time value among the records that is after the epoch;
    the epoch when there is none. *)
Definition latestTime (activities : list UserActivity) : Z :=
  foldr (λ a latest, match timeOf a with
                     | Some t => Z.max t latest
                     | None => latest
                     end) 0 activities.
End AggregatorNotions.

(** The records that the per-kind counts stand for: the sum of the
    counts, where a text counts for none. *)
Definition countOf (c : JsCount) : nat :=
  match c with
  | CountNumber n => n
  | CountText => 0%nat
  end.

Definition countedRecords (counts : gmap string JsCount) : nat :=
  map_fold (λ _ c total, (countOf c + total)%nat) 0%nat counts.

(** ** Further notions of the service *)

(** The reads from the store that a trace records, in order. *)
Definition cacheReads (trace : list Event) : list string :=
  omap (λ ev, match ev with EvRedisGet key => Some key | _ => None end) trace.

(** The messages of the error records of a trace, in order. *)
Definition errorMessages (trace : list Event) : list string :=
  omap (λ ev, match ev with
              | EvLog LError message _ => Some message
              | _ => None
              end)
    trace.

(** The store keeps what it accepts: a read that follows an accepted
    write of a key answers the text written. *)
Definition StoreKeeps {W} (C : Collaborators W) : Prop :=
  ∀ key seconds value w w',
    redis_setex C key seconds value w = (inr (), w') →
    (redis_get C key w').1 = inr (Some value).

(** The reasons of the rejected results, in order. *)
Definition rejections {A} (results : list (Outcome A)) : list JsError :=
  omap (λ result, match result with Threw reason => Some reason | _ => None end)
    results.

(** The record that [bulkProcessUserMetrics] logs for a rejected result. *)
Definition bulkFailure (userIdsCount : Z) (reason : JsError) : Event :=
  EvLog LError "Failed to process user metrics"
    [("error", VError reason); ("userIdsCount", VNumber userIdsCount)].

(** The record that ends [bulkProcessUserMetrics]. *)
Definition bulkSummary (requested processed : Z) : Event :=
  EvLog LInfo "Bulk processed user metrics"
    [("requested", VNumber requested); ("processed", VNumber processed)].

(** ** Reading a tag back

    The inverse of [base64_encode], by which the properties of cache
    keys show that no two texts share a tag. *)

Fixpoint index_of_char (c : ascii) (s : string) (i : N) : option N :=
  match s with
  | EmptyString => None
  | String c' rest =>
      if Ascii.eqb c c' then Some i else index_of_char c rest (i + 1)%N
  end.

Definition base64_value (c : ascii) : option N :=
  index_of_char c base64_alphabet 0.

Fixpoint base64_decode (s : string) : option (list N) :=
  match s with
  | EmptyString => Some []
  | String c0 (String c1 (String c2 (String c3 rest))) =>
      match base64_value c0, base64_value c1 with
      | Some s0, Some s1 =>
          let a := N.lor (N.shiftl s0 2) (N.shiftr s1 4) in
          match base64_value c2, base64_value c3 with
          | Some s2, Some s3 =>
              let b := N.lor (N.shiftl (N.land s1 15) 4) (N.shiftr s2 2) in
              let c := N.lor (N.shiftl (N.land s2 3) 6) s3 in
              match base64_decode rest with
              | Some bytes => Some (a :: b :: c :: bytes)
              | None => None
              end
          | Some s2, None =>
              Some [a; N.lor (N.shiftl (N.land s1 15) 4) (N.shiftr s2 2)]
          | None, _ => Some [a]
          end
      | _, _ => None
      end
  | _ => None
  end.

(** The bytes, and what the encoding needs of any two of them: its
    digits are below 64 and give the bytes back. *)
Definition byte_values : list N := map N.of_nat (seq 0 256).

Definition sextets_ok (a b : N) : bool :=
  let s0 := N.shiftr a 2 in
  let s1 := N.lor (N.shiftl (N.land a 3) 4) (N.shiftr b 4) in
  let s1' := N.shiftl (N.land a 3) 4 in
  let s2 := N.lor (N.shiftl (N.land a 15) 2) (N.shiftr b 6) in
  let s2' := N.shiftl (N.land a 15) 2 in
  let s3 := N.land a 63 in
  ((s0 <? 64) && (s1 <? 64) && (s1' <? 64) && (s2 <? 64) && (s2' <? 64)
   && (s3 <? 64)
   && (N.lor (N.shiftl s0 2) (N.shiftr s1 4) =? a)
   && (N.lor (N.shiftl s0 2) (N.shiftr s1' 4) =? a)
   && (N.land s1 15 =? N.shiftr b 4)
   && (N.shiftr s2 2 =? N.land a 15)
   && (N.shiftr s2' 2 =? N.land a 15)
   && (N.land s2 3 =? N.shiftr b 6)
   && (N.lor (N.shiftl (N.shiftr a 4) 4) (N.land a 15) =? a)
   && (N.lor (N.shiftl (N.shiftr a 6) 6) (N.land a 63) =? a))%N.

(** ** The keyspace of the sample store *)

Module SampleKeyspace.
Import Sample.

(** The text of a pattern before its last character: a pattern that is
    a text followed by [*] matches the keys that begin with the text. *)
Definition literal_part (pattern : string) : string :=
  substring 0 (String.length pattern - 1) pattern.

Definition keyspace : Keyspace World := {|
  redis_keys pattern w :=
    if redis_up w
    then (inr (List.filter (String.prefix (literal_part pattern))
                 (map_to_list (store w)).*1), w)
    else (inl (Error "Connection is closed."), w);
  redis_del keys w :=
    if redis_up w
    then (inr (Z.of_nat
                 (length (List.filter
                            (λ key, bool_decide (is_Some (store w !! key)))
                            keys))),
          {| store := foldr delete (store w) keys; redis_up := true;
             now := now w; api := api w |})
    else (inl (Error "Connection is closed."), w);
|}.
End SampleKeyspace.

(** * Properties *)

(** ** Bucket arrays *)

Section BucketFacts.
Context `{R : Runtime}.

Lemma getHours_range t : 0 ≤ getHours t < 24.
Proof. unfold getHours. apply Z.mod_pos_bound. lia. Qed.

Lemma getDay_range t : 0 ≤ getDay t < 7.
Proof. unfold getDay. apply Z.mod_pos_bound. lia. Qed.

Lemma tally_hourCounts c a :
  hourCounts (tally c a) =
    match hourOf a with
    | Some h => alter S (Z.to_nat h) (hourCounts c)
    | None => hourCounts c
    end.
Proof. unfold tally, hourOf. by destruct (Date_parse _). Qed.

Lemma tally_dayCounts c a :
  dayCounts (tally c a) =
    match dayOf a with
    | Some d => alter S (Z.to_nat d) (dayCounts c)
    | None => dayCounts c
    end.
Proof. unfold tally, dayOf. by destruct (Date_parse _). Qed.

Lemma hourOf_range a h : hourOf a = Some h → 0 ≤ h < 24.
Proof.
  unfold hourOf. destruct (Date_parse _) as [t|]; simpl; [|done].
  intros [= <-]. apply getHours_range.
Qed.

Lemma dayOf_range a d : dayOf a = Some d → 0 ≤ d < 7.
Proof.
  unfold dayOf. destruct (Date_parse _) as [t|]; simpl; [|done].
  intros [= <-]. apply getDay_range.
Qed.

(** A bucket array counts, slot by slot, the records of its bucket. *)
Lemma bucket_fold (slotOf : UserActivity → option Z)
    (get : Counters → list nat) activities :
  (∀ c a, get (tally c a) =
     match slotOf a with
     | Some s => alter S (Z.to_nat s) (get c)
     | None => get c
     end) →
  (∀ a s, slotOf a = Some s → 0 ≤ s) →
  ∀ c (i : nat),
    get (foldl tally c activities) !! i =
      (λ n, n + length (filter (λ a, slotOf a = Some (Z.of_nat i)) activities))%nat
        <$> get c !! i.
Proof.
  intros Hstep Hpos. induction activities as [|a rest IH]; intros c i; simpl.
  - destruct (get c !! i); simpl; [f_equal; lia | done].
  - rewrite IH, Hstep, filter_cons.
    destruct (slotOf a) as [s|] eqn:Hs.
    + destruct (decide (Z.to_nat s = i)) as [<- | Hne].
      * rewrite list_lookup_alter_eq.
        rewrite Z2Nat.id by eauto.
        rewrite decide_True by done.
        destruct (get c !! Z.to_nat s); simpl; [f_equal; lia | done].
      * rewrite list_lookup_alter_ne by done.
        rewrite decide_False; [done |].
        intros [= ->]. apply Hne. apply Nat2Z.id.
    + by rewrite decide_False.
Qed.

Lemma bucket_fold_length (get : Counters → list nat)
    (slotOf : UserActivity → option Z) activities :
  (∀ c a, get (tally c a) =
     match slotOf a with
     | Some s => alter S (Z.to_nat s) (get c)
     | None => get c
     end) →
  ∀ c, length (get (foldl tally c activities)) = length (get c).
Proof.
  intros Hstep. induction activities as [|a rest IH]; intros c; simpl; [done|].
  rewrite IH, Hstep. destruct (slotOf a); [apply length_alter | done].
Qed.

Lemma hourCounts_spec activities (i : nat) :
  (i < 24)%nat →
  hourCounts (foldl tally initialCounters activities) !! i
  = Some (hourCount (Z.of_nat i) activities).
Proof.
  intros Hi.
  rewrite (bucket_fold hourOf hourCounts activities tally_hourCounts).
  - change (hourCounts initialCounters) with (replicate 24 0%nat).
    by rewrite lookup_replicate_2.
  - intros a s Hs. apply hourOf_range in Hs. lia.
Qed.

Lemma dayCounts_spec activities (i : nat) :
  (i < 7)%nat →
  dayCounts (foldl tally initialCounters activities) !! i
  = Some (dayCount (Z.of_nat i) activities).
Proof.
  intros Hi.
  rewrite (bucket_fold dayOf dayCounts activities tally_dayCounts).
  - change (dayCounts initialCounters) with (replicate 7 0%nat).
    by rewrite lookup_replicate_2.
  - intros a s Hs. apply dayOf_range in Hs. lia.
Qed.

Lemma hourCounts_length activities :
  length (hourCounts (foldl tally initialCounters activities)) = 24%nat.
Proof. by rewrite (bucket_fold_length hourCounts hourOf _ tally_hourCounts). Qed.

Lemma dayCounts_length activities :
  length (dayCounts (foldl tally initialCounters activities)) = 7%nat.
Proof. by rewrite (bucket_fold_length dayCounts dayOf _ tally_dayCounts). Qed.
End BucketFacts.

(** ** [indexOf] of the maximum *)

Lemma indexOf_from_elem (counts : list nat) (x : nat) (i : Z) :
  x ∈ counts →
  ∃ j : nat,
    indexOf_from i counts x = i + Z.of_nat j
    ∧ counts !! j = Some x
    ∧ ∀ j' : nat, (j' < j)%nat → counts !! j' ≠ Some x.
Proof.
  revert i. induction counts as [|y rest IH]; intros i Hin.
  - by apply elem_of_nil in Hin.
  - simpl. destruct (decide (y = x)) as [-> | Hne].
    + exists 0%nat. split_and!; [lia | done | lia].
    + apply elem_of_cons in Hin as [-> | Hin]; [done |].
      destruct (IH (i + 1) Hin) as (j & Hj & Hlook & Hfirst).
      exists (S j). split_and!; [lia | done |].
      intros [|j'] Hlt; simpl; [congruence | apply Hfirst; lia].
Qed.

(** The index of the first maximum of a bucket array whose slots hold
    [count 0], [count 1], ... *)
Lemma indexOf_max_first (counts : list nat) (count : Z → nat) (n : nat) :
  (0 < n)%nat →
  length counts = n →
  (∀ i : nat, (i < n)%nat → counts !! i = Some (count (Z.of_nat i))) →
  let best := indexOf counts (Math_max counts) in
  0 ≤ best < Z.of_nat n
  ∧ (∀ h, 0 ≤ h < Z.of_nat n → (count h ≤ count best)%nat)
  ∧ (∀ h, 0 ≤ h < best → (count h < count best)%nat).
Proof.
  intros Hn Hlen Hslots best.
  assert (Hne : counts ≠ []) by (intros ->; simpl in Hlen; lia).
  destruct (indexOf_from_elem counts (Math_max counts) 0 (max_list_elem_of _ Hne))
    as (j & Hj & Hlook & Hfirst).
  assert (Hjn : (j < n)%nat) by (rewrite <- Hlen; by eapply lookup_lt_Some).
  assert (Hbest : best = Z.of_nat j) by (unfold best, indexOf; lia).
  assert (Hmax : count best = Math_max counts).
  { rewrite Hbest. specialize (Hslots j Hjn). congruence. }
  assert (Hle : ∀ i : nat, (i < n)%nat → (count (Z.of_nat i) ≤ Math_max counts)%nat).
  { intros i Hi. apply max_list_elem_of_le, list_elem_of_lookup. eauto. }
  split; [lia | split].
  - intros h Hh. rewrite Hmax, <- (Z2Nat.id h) by lia. apply Hle. lia.
  - intros h Hh. rewrite Hmax, <- (Z2Nat.id h) by lia.
    assert (Hi : (Z.to_nat h < j)%nat) by lia.
    specialize (Hle (Z.to_nat h) ltac:(lia)).
    specialize (Hfirst _ Hi). rewrite Hslots in Hfirst by lia.
    assert (count (Z.of_nat (Z.to_nat h)) ≠ Math_max counts) by congruence.
    lia.
Qed.

(** ** Aggregation *)

Section AggregatorFacts.
Context `{R : Runtime}.

(** C8. Aggregating the empty record list yields the all-zero metrics:
    total count 0, no per-kind count, average duration 0, most active
    hour 0, most active day 0, days since the last activity 0 and
    engagement score 0. The aggregator is a total function, so there is
    no error to report. *)
Theorem processActivities_empty currentDate :
  processActivities currentDate [] = {|
    totalActivities := 0;
    activityByType := ∅;
    averageDurationSec := 0;
    mostActiveHour := 0;
    mostActiveDay := 0;
    daysSinceLastActivity := 0;
    engagementScore := 0;
  |}.
Proof. reflexivity. Qed.

(** C9. The most active hour is the lowest index among the 24 hour
    buckets that attain the maximum count: it is an hour of the day, no
    hour has more records, and every earlier hour has fewer. The same
    holds of the most active day among the 7 day buckets. This holds of
    every record list, the non-empty ones in particular. *)
Theorem most_active_first_maximum currentDate activities :
  let m := processActivities currentDate activities in
  (0 ≤ mostActiveHour m < 24
   ∧ (∀ h, 0 ≤ h < 24 →
        (hourCount h activities ≤ hourCount (mostActiveHour m) activities)%nat)
   ∧ (∀ h, 0 ≤ h < mostActiveHour m →
        (hourCount h activities < hourCount (mostActiveHour m) activities)%nat))
  ∧ (0 ≤ mostActiveDay m < 7
     ∧ (∀ d, 0 ≤ d < 7 →
          (dayCount d activities ≤ dayCount (mostActiveDay m) activities)%nat)
     ∧ (∀ d, 0 ≤ d < mostActiveDay m →
          (dayCount d activities < dayCount (mostActiveDay m) activities)%nat)).
Proof.
  intros m. subst m. unfold processActivities.
  destruct activities as [|a rest].
  { unfold hourCount, dayCount. cbn. repeat split; intros; lia. }
  change (length (a :: rest) =? 0)%nat with false. cbv iota.
  cbn [mostActiveHour mostActiveDay].
  split.
  - apply (indexOf_max_first _ (λ h, hourCount h (a :: rest)) 24); [lia | |].
    + apply hourCounts_length.
    + intros i Hi. by apply hourCounts_spec.
  - apply (indexOf_max_first _ (λ d, dayCount d (a :: rest)) 7); [lia | |].
    + apply dayCounts_length.
    + intros i Hi. by apply dayCounts_spec.
Qed.

(** Rounding commutes with clamping to an interval of integers. *)
Lemma Math_round_mono x y : (x <= y)%Q → Math_round x ≤ Math_round y.
Proof.
  intros Hxy. unfold Math_round. apply Qfloor_resp_le.
  by apply Qplus_le_l.
Qed.





(** *** Per-kind counts *)

Lemma tally_typeCounts c a :
  typeCounts (tally c a) = count_type (typeCounts c) (act_type a).
Proof. unfold tally. by destruct (Date_parse _). Qed.










Lemma activityByType_typeCounts currentDate activities :
  activityByType (processActivities currentDate activities)
  = typeCounts (foldl tally initialCounters activities).
Proof. unfold processActivities. by destruct activities. Qed.

End AggregatorFacts.

(** ** Sorting *)

Section SortFacts.
Context {A : Type} (cmp : A → A → comparison).

Lemma insert_sorted_perm x l : insert_sorted cmp x l ≡ₚ x :: l.
Proof.
  induction l as [|y l IH]; simpl; [done|].
  destruct (cmp x y); [done | done |].
  rewrite IH. apply perm_swap.
Qed.

Lemma Array_sort_perm l : Array_sort cmp l ≡ₚ l.
Proof.
  induction l as [|x l IH]; simpl; [done|].
  rewrite insert_sorted_perm. by rewrite IH.
Qed.

Lemma Array_sort_length l : length (Array_sort cmp l) = length l.
Proof. apply Permutation_length, Array_sort_perm. Qed.

Hypothesis cmp_antisym : ∀ a b, cmp b a = CompOpp (cmp a b).
Hypothesis cmp_trans : ∀ a b c, cmp a b = Lt → cmp b c = Lt → cmp a c = Lt.




End SortFacts.

(** ** Cache keys *)


Section CacheKeyFacts.
Context `{R : Runtime}.

Lemma survivingFields_Some f :
  survivingFields (Some f) = filter (λ e, is_defined e.2) f.
Proof. done. Qed.

Lemma sortedEntries_perm f : sortedEntries f ≡ₚ survivingFields (Some f).
Proof. apply Array_sort_perm. Qed.

(** C6, as the code has it. The cache key is
    ["user-activity:<subjectId>:<namespace>"], followed by [":<tag>"]
    exactly when a filter field survives; the tag is the base64 text of
    the surviving fields, sorted by name and joined as [name=value]
    pairs with [&]. With no filter, an empty filter or a filter whose
    fields are all absent, the key ends after the namespace. *)
Theorem generateCacheKey_layout prefix userId filter :
  let base := "user-activity:" +:+ userId +:+ ":" +:+ prefix in
  let sorted := Array_sort compareEntries (survivingFields filter) in
  sorted ≡ₚ survivingFields filter
  ∧ generateCacheKey prefix userId filter =
      match survivingFields filter with
      | [] => base
      | _ :: _ => base +:+ ":" +:+ Buffer_toBase64 (filterString sorted)
      end.
Proof.
  intros base sorted. split; [apply Array_sort_perm|].
  unfold generateCacheKey. fold base.
  destruct filter as [f|]; [|done].
  subst sorted. rewrite survivingFields_Some.
  destruct f as [|e f]; [done|].
  change (0 <? length (e :: f))%nat with true. cbv iota.
  unfold sortedEntries.
  rewrite Array_sort_length.
  match goal with
  | |- context [Array_sort _ ?l] => generalize l
  end.
  by intros [|? ?].
Qed.


End CacheKeyFacts.

(** ** Running the service *)

Section RunFacts.
Context {W : Type} (C : Collaborators W).

Lemma run_bind {A B} (p : Prog A) (f : A → Prog B) w :
  run C (p ≫= f) w =
    let '(o, w1, t1) := run C p w in
    match o with
    | Returned a => let '(o2, w2, t2) := run C (f a) w1 in (o2, w2, t1 ++ t2)
    | Threw e => (Threw e, w1, t1)
    end.
Proof.
  change (p ≫= f) with (bind p f).
  revert w. induction p as [a|e|l m c k IH|k IH|key k IH|key s v k IH|url cfg k IH];
    intros w; simpl.
  - by destruct (run C (f a) w) as [[o2 w2] t2].
  - done.
  - rewrite IH. destruct (run C k w) as [[[a|e] w1] t1]; [|done].
    by destruct (run C (f a) w1) as [[o2 w2] t2].
  - apply IH.
  - destruct (redis_get C key w) as [r w0]. rewrite IH.
    destruct (run C (k r) w0) as [[[a|e] w1] t1]; [|done].
    by destruct (run C (f a) w1) as [[o2 w2] t2].
  - destruct (redis_setex C key s v w) as [r w0]. rewrite IH.
    destruct (run C (k r) w0) as [[[a|e] w1] t1]; [|done].
    by destruct (run C (f a) w1) as [[o2 w2] t2].
  - destruct (axios_get C url cfg w) as [r w0]. rewrite IH.
    destruct (run C (k r) w0) as [[[a|e] w1] t1]; [|done].
    by destruct (run C (f a) w1) as [[o2 w2] t2].
Qed.

Lemma run_try_catch {A} (p : Prog A) (handler : JsError → Prog A) w :
  run C (try_catch p handler) w =
    let '(o, w1, t1) := run C p w in
    match o with
    | Returned a => (Returned a, w1, t1)
    | Threw e => let '(o2, w2, t2) := run C (handler e) w1 in (o2, w2, t1 ++ t2)
    end.
Proof.
  revert w. induction p as [a|e|l m c k IH|k IH|key k IH|key s v k IH|url cfg k IH];
    intros w; simpl.
  - done.
  - by destruct (run C (handler e) w) as [[o2 w2] t2].
  - rewrite IH. destruct (run C k w) as [[[a|e] w1] t1]; [done|].
    by destruct (run C (handler e) w1) as [[o2 w2] t2].
  - apply IH.
  - destruct (redis_get C key w) as [r w0]. rewrite IH.
    destruct (run C (k r) w0) as [[[a|e] w1] t1]; [done|].
    by destruct (run C (handler e) w1) as [[o2 w2] t2].
  - destruct (redis_setex C key s v w) as [r w0]. rewrite IH.
    destruct (run C (k r) w0) as [[[a|e] w1] t1]; [done|].
    by destruct (run C (handler e) w1) as [[o2 w2] t2].
  - destruct (axios_get C url cfg w) as [r w0]. rewrite IH.
    destruct (run C (k r) w0) as [[[a|e] w1] t1]; [done|].
    by destruct (run C (handler e) w1) as [[o2 w2] t2].
Qed.

Context `{R : Runtime}.
Context `{JA : Json (list UserActivity)} `{JM : Json EngagementMetrics}.
Variable this : UserActivityService.

Lemma getFromCache_run {T} `{Json T} key w :
  run C (getFromCache (T:=T) key) w =
    let '(answer, w1) := redis_get C key w in
    match readAnswer answer with
    | inr v => (Returned v, w1, [EvRedisGet key])
    | inl e =>
        (Returned None, w1,
         [EvRedisGet key;
          EvLog LWarn "Cache retrieval failed, falling back to API"
            [("key", VString key); ("error", VError e)]])
    end.
Proof.
  unfold getFromCache. simpl.
  destruct (redis_get C key w) as [[e|[text|]] w1]; simpl; [done| |done].
  destruct (String.eqb text ""); [done|].
  by destruct (JSON_parse text) as [e|v].
Qed.

Lemma setInCache_run {T} `{Json T} key (data : T) ttl w :
  run C (setInCache key data ttl) w =
    let '(r, w1) := redis_setex C key ttl (JSON_stringify data) w in
    (Returned (), w1,
     EvRedisSetex key ttl (JSON_stringify data) ::
     match r with
     | inl e => [EvLog LWarn "Failed to cache data"
                   [("key", VString key); ("error", VError e)]]
     | inr _ => []
     end).
Proof.
  unfold setInCache. simpl.
  by destruct (redis_setex C key ttl (JSON_stringify data) w) as [[e|[]] w1].
Qed.

Lemma handleError_run message error context w :
  ∃ context',
    run C (handleError message error context) w
    = (Returned (), w, [EvLog LError message (context ++ context')]).
Proof. destruct error; simpl; eauto. Qed.

Lemma getUserActivity_run userId filter w :
  let key := generateCacheKey "activity" userId filter in
  let fetching :=
    EvLog LDebug "Fetching user activity from API"
      [("userId", VString userId); ("filter", VObject filter)] in
  let request := EvAxiosGet (activityEndpoint this userId) (activityRequest this filter) in
  run C (getUserActivity this userId filter) w =
    let '(answer, w1) := redis_get C key w in
    let t1 := (run C (getFromCache (T:=list UserActivity) key) w).2 in
    match storedValue answer with
    | Some cached =>
        (Returned cached, w1,
         t1 ++ [EvLog LDebug "Retrieved user activity from cache"
                  [("userId", VString userId)]])
    | None =>
        let '(response, w2) :=
          axios_get C (activityEndpoint this userId) (activityRequest this filter) w1 in
        match response with
        | inr activities =>
            let '(_, w3, t3) :=
              run C (setInCache key activities (activityTtlSec (cacheConfig this))) w2 in
            (Returned activities, w3, t1 ++ fetching :: request :: t3)
        | inl e =>
            let '(_, _, t3) :=
              run C (handleError "Failed to fetch user activity" e
                       [("userId", VString userId)]) w2 in
            (Threw e, w2, t1 ++ fetching :: request :: t3)
        end
    end.
Proof.
  intros key fetching request.
  unfold getUserActivity, activityEndpoint, activityRequest, storedValue.
  fold key.
  rewrite run_try_catch, run_bind, !getFromCache_run.
  destruct (redis_get C key w) as [answer w1].
  destruct (readAnswer answer) as [e|[cached|]]; simpl; [|done|].
  all: destruct (axios_get C _ _ w1) as [[e'|activities] w2]; simpl.
  all: try (by destruct e').
  all: by destruct (redis_setex C _ _ _ w2) as [[e'|[]] w3].
Qed.

Lemma getFromCache_returns {T} `{Json T} key w :
  run C (getFromCache (T:=T) key) w
  = (Returned (storedValue (redis_get C key w).1), (redis_get C key w).2,
     (run C (getFromCache (T:=T) key) w).2).
Proof.
  rewrite getFromCache_run. unfold storedValue.
  destruct (redis_get C key w) as [answer w1]; simpl.
  by destruct (readAnswer answer).
Qed.

Lemma getFromCache_quiet {T} `{Json T} key w :
  axiosCalls (run C (getFromCache (T:=T) key) w).2 = []
  ∧ cacheWrites (run C (getFromCache (T:=T) key) w).2 = [].
Proof.
  rewrite getFromCache_run.
  destruct (redis_get C key w) as [answer w1]; simpl.
  by destruct (readAnswer answer).
Qed.

Lemma axiosCalls_app t1 t2 : axiosCalls (t1 ++ t2) = axiosCalls t1 ++ axiosCalls t2.
Proof. apply omap_app. Qed.

Lemma cacheWrites_app t1 t2 :
  cacheWrites (t1 ++ t2) = cacheWrites t1 ++ cacheWrites t2.
Proof. apply omap_app. Qed.

(** C1. Cache-aside retrieval. The cache read of [getUserActivity]
    returns, never throws. When it returns a stored value (hit), the
    remote source is not called, nothing is written, and the stored
    records are the result. When it returns absent (miss), the remote
    source is called exactly once, with the endpoint of the subject and
    the filter; on its success the fetched records are the result, and
    right after the call they are written to the cache under the key of
    the read with the TTL of raw records; on its failure the error is
    the result and nothing is written. *)
Theorem cache_aside userId filter w :
  let key := generateCacheKey "activity" userId filter in
  let endpoint := activityEndpoint this userId in
  let request := activityRequest this filter in
  let ttl := activityTtlSec (cacheConfig this) in
  ∃ cachedData w1 t1 o w' t,
    run C (getFromCache (T:=list UserActivity) key) w = (Returned cachedData, w1, t1)
    ∧ run C (getUserActivity this userId filter) w = (o, w', t)
    ∧ match cachedData with
      | Some cached =>
          o = Returned cached ∧ axiosCalls t = [] ∧ cacheWrites t = []
      | None =>
          axiosCalls t = [(endpoint, request)]
          ∧ match (axios_get C endpoint request w1).1 with
            | inr activities =>
                o = Returned activities
                ∧ cacheWrites t = [(key, ttl, JSON_stringify activities)]
                ∧ ∃ before after,
                    t = before ++ EvAxiosGet endpoint request
                          :: EvRedisSetex key ttl (JSON_stringify activities)
                          :: after
            | inl e => o = Threw e ∧ cacheWrites t = []
            end
      end.
Proof.
  intros key endpoint request ttl.
  pose proof (getFromCache_returns (T:=list UserActivity) key w) as Hread.
  pose proof (getFromCache_quiet (T:=list UserActivity) key w) as [Hq1 Hq2].
  pose proof (getUserActivity_run userId filter w) as Hrun.
  cbv zeta in Hrun. fold key endpoint request ttl in Hrun.
  set (t1 := (run C (getFromCache key) w).2) in *.
  destruct (redis_get C key w) as [answer w1]. cbn [fst snd] in Hread.
  destruct (storedValue answer) as [cached|].
  - eexists _, _, _, _, _, _.
    split; [exact Hread|]. split; [exact Hrun|]. split_and!; [done | |].
    + by rewrite axiosCalls_app, Hq1.
    + by rewrite cacheWrites_app, Hq2.
  - destruct (axios_get C endpoint request w1) as [[e|activities] w2] eqn:Hget.
    + destruct (handleError_run "Failed to fetch user activity" e
                  [("userId", VString userId)] w2) as [ctx Hctx].
      rewrite Hctx in Hrun.
      eexists _, _, _, _, _, _.
      split; [exact Hread|]. split; [exact Hrun|]. cbv beta iota.
      rewrite Hget. cbn [fst]. split_and!; [ | done | ].
      * by rewrite axiosCalls_app, Hq1.
      * by rewrite cacheWrites_app, Hq2.
    + rewrite setInCache_run in Hrun.
      destruct (redis_setex C key ttl (JSON_stringify activities) w2) as [r w3].
      eexists _, _, _, _, _, _.
      split; [exact Hread|]. split; [exact Hrun|]. cbv beta iota.
      rewrite Hget. cbn [fst]. split_and!; [ | done | | ].
      * rewrite axiosCalls_app, Hq1. simpl. by destruct r.
      * rewrite cacheWrites_app, Hq2. simpl. by destruct r.
      * eexists (t1 ++ [_]), _. by rewrite <- app_assoc.
Qed.

Lemma calculateEngagementMetrics_run userId timeRangeInDays w :
  let key :=
    generateCacheKey "metrics" userId
      (Some [("timeRangeInDays", optional_number timeRangeInDays)]) in
  run C (calculateEngagementMetrics this userId timeRangeInDays) w =
    let '(answer, w1) := redis_get C key w in
    let t1 := (run C (getFromCache (T:=EngagementMetrics) key) w).2 in
    match storedValue answer with
    | Some cached =>
        (Returned cached, w1,
         t1 ++ [EvLog LDebug "Retrieved engagement metrics from cache"
                  [("userId", VString userId)]])
    | None =>
        let '(o, w2, t2) := run C (computeMetrics this userId timeRangeInDays) w1 in
        match o with
        | Returned metrics =>
            let '(_, w3, t3) :=
              run C (setInCache key metrics (metricsTtlSec (cacheConfig this))) w2 in
            (Returned metrics, w3, t1 ++ t2 ++ t3)
        | Threw e =>
            let '(_, _, t3) :=
              run C (handleError "Failed to calculate engagement metrics" e
                       [("userId", VString userId)]) w2 in
            (Threw e, w2, t1 ++ t2 ++ t3)
        end
    end.
Proof.
  intros key. unfold calculateEngagementMetrics, computeMetrics, storedValue.
  fold key.
  rewrite run_try_catch, run_bind, !getFromCache_run.
  destruct (redis_get C key w) as [answer w1].
  assert (Hmiss : ∀ t0,
    match
      (let '(o2, w2, t2) :=
         run C
           (timeRangeFilter timeRangeInDays ≫= λ filter,
            getUserActivity this userId (Some filter) ≫= λ activities,
            NewDate Ret ≫= λ currentDate,
            let metrics := processActivities currentDate activities in
            setInCache key metrics (metricsTtlSec (cacheConfig this)) ≫= λ _,
            Ret metrics) w1 in
       (o2, w2, t0 ++ t2))
    with
    | (Returned a, w0, t1) => (Returned a, w0, t1)
    | (Threw e, w0, t1) =>
        let '(o2, w2, t2) :=
          run C (handleError "Failed to calculate engagement metrics" e
                   [("userId", VString userId)] ≫= λ _, Throw e) w0 in
        (o2, w2, t1 ++ t2)
    end =
    let '(o, w2, t2) :=
      run C
        (timeRangeFilter timeRangeInDays ≫= λ filter,
         getUserActivity this userId (Some filter) ≫= λ activities,
         NewDate Ret ≫= λ currentDate,
         Ret (processActivities currentDate activities)) w1 in
    match o with
    | Returned metrics =>
        let '(_, w3, t3) :=
          run C (setInCache key metrics (metricsTtlSec (cacheConfig this))) w2 in
        (Returned metrics, w3, t0 ++ t2 ++ t3)
    | Threw e =>
        let '(_, _, t3) :=
          run C (handleError "Failed to calculate engagement metrics" e
                   [("userId", VString userId)]) w2 in
        (Threw e, w2, t0 ++ t2 ++ t3)
    end).
  { intros t0. rewrite !run_bind.
    destruct (run C (timeRangeFilter timeRangeInDays) w1) as [[[filter|e] w2] t2].
    - rewrite !run_bind.
      destruct (run C (getUserActivity this userId (Some filter)) w2)
        as [[[activities|e] w3] t3].
      + rewrite !run_bind. cbn [run]. cbv zeta. rewrite run_bind.
        destruct (run C (setInCache key _ _) w3) as [[[[]|e] w4] t4] eqn:Hset.
        * simpl. by rewrite !app_nil_r, <- !app_assoc.
        * rewrite setInCache_run in Hset.
          by destruct (redis_setex C _ _ _ w3).
      + rewrite run_bind.
        destruct (handleError_run "Failed to calculate engagement metrics" e
                    [("userId", VString userId)] w3) as [ctx ->].
        simpl. by rewrite <- !app_assoc.
    - rewrite run_bind.
      destruct (handleError_run "Failed to calculate engagement metrics" e
                  [("userId", VString userId)] w2) as [ctx ->].
      simpl. by rewrite <- !app_assoc. }
  destruct (readAnswer answer) as [e|[cached|]]; cbn [snd].
  - apply (Hmiss [_; _]).
  - done.
  - apply (Hmiss [_]).
Qed.

Lemma readFailed_storedValue {T} `{Json T} answer :
  readFailed (T:=T) answer → storedValue (T:=T) answer = None.
Proof.
  unfold storedValue, readAnswer.
  intros [[e ->] | (text & e & -> & Hne & Hparse)]; [done|].
  apply String.eqb_neq in Hne. by rewrite Hne, Hparse.
Qed.

Lemma readFailed_readAnswer {T} `{Json T} answer :
  readFailed (T:=T) answer → ∃ e, readAnswer (T:=T) answer = inl e.
Proof.
  unfold readAnswer.
  intros [[e ->] | (text & e & -> & Hne & Hparse)]; [by eexists|].
  apply String.eqb_neq in Hne. rewrite Hne, Hparse. by eexists.
Qed.

Lemma getUserActivity_outcome userId filter w :
  let key := generateCacheKey "activity" userId filter in
  (run C (getUserActivity this userId filter) w).1.1 =
    match storedValue (redis_get C key w).1 with
    | Some cached => Returned cached
    | None =>
        match (axios_get C (activityEndpoint this userId)
                 (activityRequest this filter) (redis_get C key w).2).1 with
        | inr activities => Returned activities
        | inl e => Threw e
        end
    end.
Proof.
  intros key. rewrite getUserActivity_run. fold key.
  destruct (redis_get C key w) as [answer w1]. cbn [fst snd].
  destruct (storedValue answer); [done|].
  destruct (axios_get C _ _ w1) as [[e|activities] w2]; cbn [fst snd].
  - by destruct (run C (handleError _ _ _) w2) as [[? ?] ?].
  - by destruct (run C (setInCache _ _ _) w2) as [[? ?] ?].
Qed.

Lemma getUserActivity_axiosCalls userId filter w :
  ∀ call, call ∈ axiosCalls (run C (getUserActivity this userId filter) w).2 →
  call = (activityEndpoint this userId, activityRequest this filter).
Proof.
  intros call. rewrite getUserActivity_run.
  pose proof (getFromCache_quiet (T:=list UserActivity)
                (generateCacheKey "activity" userId filter) w) as [Hq _].
  destruct (redis_get C _ w) as [answer w1].
  destruct (storedValue answer).
  - cbn [snd]. rewrite axiosCalls_app, Hq. simpl. by intros ?%elem_of_nil.
  - destruct (axios_get C _ _ w1) as [[e|activities] w2].
    + destruct (handleError_run "Failed to fetch user activity" e
                  [("userId", VString userId)] w2) as [ctx ->].
      cbn [snd]. rewrite axiosCalls_app, Hq. simpl.
      by intros ->%list_elem_of_singleton.
    + rewrite setInCache_run.
      destruct (redis_setex C _ _ _ w2) as [r w3].
      cbn [snd]. rewrite axiosCalls_app, Hq. simpl.
      destruct r; simpl; by intros ->%list_elem_of_singleton.
Qed.

(** C4. Cache failures are absorbed where they occur.
    A cache read never throws: when the store rejects the command or the
    stored text does not parse, the read returns absent and logs a
    warning. A cache write never throws: when the store rejects it, a
    warning is logged. So, whether the read found nothing or failed, and
    whatever becomes of the write, [getUserActivity] ends as the request
    to the remote source ends, and [calculateEngagementMetrics] ends as
    the computation behind the metrics cache ends. *)
Theorem cache_failures_absorbed :
  (∀ T (J : Json T) key w,
     ∃ r w' t,
       run C (getFromCache (T:=T) key) w = (Returned r, w', t)
       ∧ (readFailed (T:=T) (redis_get C key w).1 →
          r = None ∧ warned "Cache retrieval failed, falling back to API" t))
  ∧ (∀ T (J : Json T) key (data : T) ttl w,
       ∃ w' t,
         run C (setInCache key data ttl) w = (Returned (), w', t)
         ∧ ((∃ e, (redis_setex C key ttl (JSON_stringify data) w).1 = inl e) →
            warned "Failed to cache data" t))
  ∧ (∀ userId filter w,
       let answer :=
         (redis_get C (generateCacheKey "activity" userId filter) w).1 in
       let w1 := (redis_get C (generateCacheKey "activity" userId filter) w).2 in
       readFailed (T:=list UserActivity) answer ∨ answer = inr None →
       (run C (getUserActivity this userId filter) w).1.1 =
         match (axios_get C (activityEndpoint this userId)
                  (activityRequest this filter) w1).1 with
         | inr activities => Returned activities
         | inl e => Threw e
         end)
  ∧ (∀ userId timeRangeInDays w,
       let key :=
         generateCacheKey "metrics" userId
           (Some [("timeRangeInDays", optional_number timeRangeInDays)]) in
       let answer := (redis_get C key w).1 in
       let w1 := (redis_get C key w).2 in
       readFailed (T:=EngagementMetrics) answer ∨ answer = inr None →
       (run C (calculateEngagementMetrics this userId timeRangeInDays) w).1.1 =
         (run C (computeMetrics this userId timeRangeInDays) w1).1.1).
Proof.
  split_and!.
  - intros T J key w. rewrite getFromCache_run.
    destruct (redis_get C key w) as [answer w1]. cbn [fst].
    destruct (readAnswer answer) as [e|v] eqn:Hread.
    + eexists _, _, _. split; [done|]. intros _. split; [done|].
      eexists. apply elem_of_cons. right. apply elem_of_cons. by left.
    + eexists _, _, _. split; [done|].
      intros [e He]%readFailed_readAnswer. congruence.
  - intros T J key data ttl w. rewrite setInCache_run.
    destruct (redis_setex C key ttl (JSON_stringify data) w) as [r w1].
    eexists _, _. split; [done|]. cbn [fst]. intros [e ->].
    eexists. apply elem_of_cons. right. apply elem_of_cons. by left.
  - intros userId filter w answer w1 Hmiss.
    rewrite getUserActivity_outcome. fold answer w1.
    assert (storedValue (T:=list UserActivity) answer = None) as ->; [|done].
    destruct Hmiss as [Hfail | ->]; [by apply readFailed_storedValue | done].
  - intros userId timeRangeInDays w key answer w1 Hmiss.
    rewrite calculateEngagementMetrics_run. fold key.
    assert (Hnone : storedValue (T:=EngagementMetrics) answer = None).
    { destruct Hmiss as [Hfail | ->]; [by apply readFailed_storedValue | done]. }
    subst answer w1. destruct (redis_get C key w) as [answer w1].
    cbn [fst snd] in *. rewrite Hnone.
    destruct (run C (computeMetrics this userId timeRangeInDays) w1)
      as [[[metrics|e] w2] t2]; cbn [fst].
    + by destruct (run C (setInCache _ _ _) w2) as [[? ?] ?].
    + by destruct (run C (handleError _ _ _) w2) as [[? ?] ?].
Qed.

Lemma computeMetrics_unbounded_axiosCalls userId w :
  ∀ call, call ∈ axiosCalls (run C (computeMetrics this userId None) w).2 →
  call = (activityEndpoint this userId, activityRequest this (Some [])).
Proof.
  intros call. unfold computeMetrics.
  change (timeRangeFilter None) with (Ret (A:=JsObject) []).
  rewrite run_bind.
  change (run C (Ret []) w) with (Returned (A:=JsObject) [], w, @nil Event).
  cbv beta iota. rewrite run_bind.
  pose proof (getUserActivity_axiosCalls userId (Some []) w call) as Hcalls.
  destruct (run C (getUserActivity this userId (Some [])) w)
    as [[[activities|e] w1] t1]; cbn [snd] in *.
  - simpl. by rewrite app_nil_r.
  - done.
Qed.

Lemma setInCache_quiet {T} `{Json T} key (data : T) ttl w :
  axiosCalls (run C (setInCache key data ttl) w).2 = [].
Proof.
  rewrite setInCache_run.
  by destruct (redis_setex C key ttl (JSON_stringify data) w) as [[e|[]] w1].
Qed.

Lemma handleError_quiet message error context w :
  axiosCalls (run C (handleError message error context) w).2 = [].
Proof. by destruct error. Qed.

(** C10. A time range of 0 days is treated as no time range: no
    [startDate] bound is derived, the filter of the activity fetch is
    the empty one that an absent range gives, and when the read of the
    metrics cache returns absent the call ends as the computation with
    no time range ends, and its only request to the remote source
    carries the empty filter. *)
Theorem zero_time_range_is_unbounded userId w :
  let key :=
    generateCacheKey "metrics" userId (Some [("timeRangeInDays", JsNumber 0)]) in
  timeRangeFilter (Some 0) = Ret []
  ∧ timeRangeFilter (Some 0) = timeRangeFilter None
  ∧ ((run C (getFromCache (T:=EngagementMetrics) key) w).1.1 = Returned None →
     (run C (calculateEngagementMetrics this userId (Some 0)) w).1.1
     = (run C (computeMetrics this userId None) (redis_get C key w).2).1.1
     ∧ ∀ call,
         call ∈ axiosCalls (run C (calculateEngagementMetrics this userId (Some 0)) w).2 →
         call = (activityEndpoint this userId, activityRequest this (Some []))).
Proof.
  intros key. split; [done|]. split; [done|]. intros Hmiss.
  rewrite getFromCache_returns in Hmiss. cbn [fst] in Hmiss.
  injection Hmiss as Hmiss.
  rewrite calculateEngagementMetrics_run.
  change (generateCacheKey "metrics" userId
            (Some [("timeRangeInDays", optional_number (Some 0))])) with key.
  pose proof (getFromCache_quiet (T:=EngagementMetrics) key w) as [Hq _].
  destruct (redis_get C key w) as [answer w1]. cbn [fst snd] in *.
  rewrite Hmiss.
  change (computeMetrics this userId (Some 0))
    with (computeMetrics this userId None).
  pose proof (computeMetrics_unbounded_axiosCalls userId w1) as Hcalls.
  destruct (run C (computeMetrics this userId None) w1)
    as [[[metrics|e] w2] t2]; cbn [fst snd] in *.
  - pose proof (setInCache_quiet key metrics (metricsTtlSec (cacheConfig this)) w2)
      as Hset.
    destruct (run C (setInCache _ _ _) w2) as [[? ?] t3]. cbn [fst snd] in *.
    split; [done|]. intros call.
    rewrite !axiosCalls_app, Hq, Hset, app_nil_r. simpl. apply Hcalls.
  - pose proof (handleError_quiet "Failed to calculate engagement metrics" e
                  [("userId", VString userId)] w2) as Hlog.
    destruct (run C (handleError _ _ _) w2) as [[? ?] t3]. cbn [fst snd] in *.
    split; [done|]. intros call.
    rewrite !axiosCalls_app, Hq, Hlog, app_nil_r. simpl. apply Hcalls.
Qed.
End RunFacts.

(** ** Calls in flight together *)

Lemma Array_from_Set_spec (userIds : list string) :
  NoDup (Array_from_Set userIds)
  ∧ ∀ userId, userId ∈ Array_from_Set userIds ↔ userId ∈ userIds.
Proof.
  unfold Array_from_Set.
  assert (Hgen : ∀ seen : list string,
    NoDup seen →
    NoDup (foldl (λ seen userId,
                    if decide (userId ∈ seen) then seen else seen ++ [userId])
             seen userIds)
    ∧ ∀ userId,
        userId ∈ foldl (λ seen userId,
                          if decide (userId ∈ seen) then seen else seen ++ [userId])
                   seen userIds
        ↔ userId ∈ seen ∨ userId ∈ userIds).
  { induction userIds as [|u rest IH]; intros seen Hnd; simpl.
    - split; [done|]. intros userId. rewrite elem_of_nil. tauto.
    - destruct (decide (u ∈ seen)) as [Hin | Hnin].
      + destruct (IH seen Hnd) as [Hnd' Hiff]. split; [done|].
        intros userId. rewrite Hiff, elem_of_cons.
        split; [tauto|]. intros [?|[->|?]]; tauto.
      + destruct (IH (seen ++ [u])) as [Hnd' Hiff].
        { apply NoDup_app. split_and!; [done | | apply NoDup_singleton].
          intros x Hx ->%list_elem_of_singleton. done. }
        split; [done|]. intros userId.
        rewrite Hiff, elem_of_app, list_elem_of_singleton, elem_of_cons. tauto. }
  destruct (Hgen [] (NoDup_nil_2)) as [Hnd Hiff]. split; [done|].
  intros userId. rewrite Hiff, elem_of_nil. tauto.
Qed.

Section PoolFacts.
Context {W : Type} (C : Collaborators W).

Lemma run_pool_app {A} s1 s2 (tasks : list (Prog A)) w :
  run_pool C (s1 ++ s2) tasks w =
    let '(tasks1, w1, t1) := run_pool C s1 tasks w in
    let '(tasks2, w2, t2) := run_pool C s2 tasks1 w1 in
    (tasks2, w2, t1 ++ t2).
Proof.
  revert tasks w. induction s1 as [|i s1 IH]; intros tasks w; simpl.
  - by destruct (run_pool C s2 tasks w) as [[tasks2 w2] t2].
  - destruct (step_at C i tasks w) as [[tasks0 w0] t0]. rewrite IH.
    destruct (run_pool C s1 tasks0 w0) as [[tasks1 w1] t1].
    destruct (run_pool C s2 tasks1 w1) as [[tasks2 w2] t2].
    by rewrite app_assoc.
Qed.

(** A call alone settles after finitely many nodes, as [run] says it
    ends, and advancing it leaves the other calls as they are. *)
Lemma settle_one {A} (p : Prog A) : ∀ (tasks : list (Prog A)) i w,
  tasks !! i = Some p →
  ∃ schedule p',
    run_pool C schedule tasks w
    = (<[i := p']> tasks, (run C p w).1.2, (run C p w).2)
    ∧ settled p' = Some (run C p w).1.1.
Proof.
  induction p as [a|e|l m c k IH|k IH|key k IH|key s v k IH|url cfg k IH];
    intros tasks i w Hi.
  - exists [], (Ret a). simpl. by rewrite list_insert_id.
  - exists [], (Throw e). simpl. by rewrite list_insert_id.
  - destruct (IH (<[i := k]> tasks) i w) as (sch & p' & Hrun & Hp').
    { apply list_lookup_insert_eq. by eapply lookup_lt_Some. }
    exists (i :: sch), p'.
    simpl. unfold step_at. rewrite Hi. simpl.
    rewrite Hrun, list_insert_insert_eq.
    by destruct (run C k w) as [[o w'] t].
  - destruct (IH (clock C w) (<[i := k (clock C w)]> tasks) i w)
      as (sch & p' & Hrun & Hp').
    { apply list_lookup_insert_eq. by eapply lookup_lt_Some. }
    exists (i :: sch), p'.
    simpl. unfold step_at. rewrite Hi. simpl.
    by rewrite Hrun, list_insert_insert_eq.
  - destruct (redis_get C key w) as [r w1] eqn:Hcall.
    destruct (IH r (<[i := k r]> tasks) i w1) as (sch & p' & Hrun & Hp').
    { apply list_lookup_insert_eq. by eapply lookup_lt_Some. }
    exists (i :: sch), p'.
    simpl. unfold step_at. rewrite Hi. simpl. rewrite Hcall.
    rewrite Hrun, list_insert_insert_eq.
    by destruct (run C (k r) w1) as [[o w'] t].
  - destruct (redis_setex C key s v w) as [r w1] eqn:Hcall.
    destruct (IH r (<[i := k r]> tasks) i w1) as (sch & p' & Hrun & Hp').
    { apply list_lookup_insert_eq. by eapply lookup_lt_Some. }
    exists (i :: sch), p'.
    simpl. unfold step_at. rewrite Hi. simpl. rewrite Hcall.
    rewrite Hrun, list_insert_insert_eq.
    by destruct (run C (k r) w1) as [[o w'] t].
  - destruct (axios_get C url cfg w) as [r w1] eqn:Hcall.
    destruct (IH r (<[i := k r]> tasks) i w1) as (sch & p' & Hrun & Hp').
    { apply list_lookup_insert_eq. by eapply lookup_lt_Some. }
    exists (i :: sch), p'.
    simpl. unfold step_at. rewrite Hi. simpl. rewrite Hcall.
    rewrite Hrun, list_insert_insert_eq.
    by destruct (run C (k r) w1) as [[o w'] t].
Qed.

Lemma settle_prefix {A} (n : nat) : ∀ (tasks : list (Prog A)) w,
  (n ≤ length tasks)%nat →
  ∃ schedule tasks' w' t,
    run_pool C schedule tasks w = (tasks', w', t)
    ∧ length tasks' = length tasks
    ∧ ∀ j p, (j < n)%nat → tasks' !! j = Some p → is_Some (settled p).
Proof.
  induction n as [|n IH]; intros tasks w Hn.
  - exists [], tasks, w, []. split_and!; [done..|]. intros; lia.
  - destruct (IH tasks w ltac:(lia)) as (s1 & tasks1 & w1 & t1 & Hrun1 & Hlen1 & Hset1).
    destruct (lookup_lt_is_Some_2 tasks1 n ltac:(lia)) as [p Hp].
    destruct (settle_one p tasks1 n w1 Hp) as (s2 & p' & Hrun2 & Hp').
    exists (s1 ++ s2), (<[n := p']> tasks1), (run C p w1).1.2,
      (t1 ++ (run C p w1).2).
    split_and!.
    + by rewrite run_pool_app, Hrun1, Hrun2.
    + by rewrite length_insert.
    + intros j q Hj Hq. destruct (decide (j = n)) as [-> | Hne].
      * rewrite list_lookup_insert_eq in Hq by lia. by simplify_eq.
      * rewrite list_lookup_insert_ne in Hq by done.
        apply (Hset1 j q); [lia | done].
Qed.

(** Every pool of calls has a schedule under which all of them settle. *)
Lemma settle_all {A} (tasks : list (Prog A)) w :
  ∃ schedule, is_Some (allSettled (run_pool C schedule tasks w).1.1).
Proof.
  destruct (settle_prefix (length tasks) tasks w ltac:(lia))
    as (schedule & tasks' & w' & t & Hrun & Hlen & Hset).
  exists schedule. rewrite Hrun. cbn [fst]. unfold allSettled.
  apply mapM_is_Some, Forall_lookup. intros j p Hp.
  apply (Hset j p); [|done]. rewrite <- Hlen. by eapply lookup_lt_Some.
Qed.

(** *** What a call keeps true while it advances *)

Lemma step_returnsFor {A} userId (p : Prog (string * A)) w :
  returnsFor userId p → returnsFor userId (step C p w).1.1.
Proof.
  destruct p as [a|e|l m c k|k|key k|key s v k|url cfg k];
    cbn [step returnsFor]; intros Hk.
  - done.
  - done.
  - done.
  - apply Hk.
  - destruct (redis_get C key w) as [r w1]. apply Hk.
  - destruct (redis_setex C key s v w) as [r w1]. apply Hk.
  - destruct (axios_get C url cfg w) as [r w1]. apply Hk.
Qed.

Lemma step_logsBeforeThrow {A} userId (p : Prog A) w :
  logsBeforeThrow userId p →
  logsBeforeThrow userId (step C p w).1.1
  ∨ Exists (errorLoggedFor userId) (step C p w).2.
Proof.
  destruct p as [a|e|l m c k|k|key k|key s v k|url cfg k];
    cbn [step logsBeforeThrow]; intros Hk.
  - by left.
  - done.
  - destruct Hk as [Hlog | Hk]; [right | by left]. by constructor.
  - left. apply Hk.
  - destruct (redis_get C key w) as [r w1]. left. apply Hk.
  - destruct (redis_setex C key s v w) as [r w1]. left. apply Hk.
  - destruct (axios_get C url cfg w) as [r w1]. left. apply Hk.
Qed.

Lemma tracked_mono {A} t t' userId (p : Prog (string * A)) :
  tracked t userId p → tracked (t ++ t') userId p.
Proof.
  intros [Hret [Hlog | Hex]]; (split; [done|]); [by left | right].
  apply Exists_app. by left.
Qed.

Lemma step_at_tracked {A} i userIds (tasks : list (Prog (string * A))) w t :
  Forall2 (tracked t) userIds tasks →
  Forall2 (tracked (t ++ (step_at C i tasks w).2)) userIds (step_at C i tasks w).1.1.
Proof.
  intros Hall. unfold step_at.
  destruct (tasks !! i) as [p|] eqn:Hp; cbn [fst snd].
  - destruct (Forall2_lookup_r _ _ _ _ _ Hall Hp) as (userId & Hu & Hret & Hlog).
    pose proof (step_returnsFor userId p w Hret) as Hret'.
    assert (Hlog' : logsBeforeThrow userId (step C p w).1.1
                    ∨ Exists (errorLoggedFor userId) (t ++ (step C p w).2)).
    { destruct Hlog as [Hlog | Hex].
      - destruct (step_logsBeforeThrow userId p w Hlog) as [? | Hex]; [by left|].
        right. apply Exists_app. by right.
      - right. apply Exists_app. by left. }
    destruct (step C p w) as [[p' w'] t']. cbn [fst snd] in *.
    rewrite <- (list_insert_id userIds i userId Hu).
    apply Forall2_insert; [|done].
    eapply Forall2_impl; [exact Hall|]. intros u q. apply tracked_mono.
  - rewrite app_nil_r. done.
Qed.

Lemma run_pool_tracked {A} schedule :
  ∀ userIds (tasks : list (Prog (string * A))) w t,
  Forall2 (tracked t) userIds tasks →
  Forall2 (tracked (t ++ (run_pool C schedule tasks w).2)) userIds
    (run_pool C schedule tasks w).1.1.
Proof.
  induction schedule as [|i rest IH]; intros userIds tasks w t Hall; simpl.
  - by rewrite app_nil_r.
  - pose proof (step_at_tracked i userIds tasks w t Hall) as Hstep.
    destruct (step_at C i tasks w) as [[tasks1 w1] t1]. cbn [fst snd] in *.
    specialize (IH userIds tasks1 w1 (t ++ t1) Hstep).
    destruct (run_pool C rest tasks1 w1) as [[tasks2 w2] t2]. cbn [fst snd] in *.
    by rewrite app_assoc.
Qed.

Lemma returnsFor_bind {A} userId (p : Prog A) :
  returnsFor userId (p ≫= λ a, Ret (userId, a)).
Proof.
  change (p ≫= λ a, Ret (userId, a)) with (bind p (λ a, Ret (userId, a))).
  induction p; simpl; auto.
Qed.

Lemma logsBeforeThrow_bind {A B} userId (p : Prog A) (f : A → Prog B) :
  logsBeforeThrow userId p →
  (∀ a, logsBeforeThrow userId (f a)) →
  logsBeforeThrow userId (p ≫= f).
Proof.
  change (p ≫= f) with (bind p f).
  intros Hp Hf. induction p; simpl in *; auto. tauto.
Qed.

Lemma logsBeforeThrow_try_catch {A} userId (p : Prog A) handler :
  (∀ e, logsBeforeThrow userId (handler e)) →
  logsBeforeThrow userId (try_catch p handler).
Proof. intros Hh. induction p; simpl; auto. Qed.

Context `{R : Runtime}.
Context `{JA : Json (list UserActivity)} `{JM : Json EngagementMetrics}.
Variable this : UserActivityService.

Lemma calculateEngagementMetrics_logs userId timeRangeInDays :
  logsBeforeThrow userId (calculateEngagementMetrics this userId timeRangeInDays).
Proof.
  unfold calculateEngagementMetrics. apply logsBeforeThrow_try_catch.
  intros e. destruct e; simpl; left; apply elem_of_cons; by left.
Qed.

Lemma bulkTasks_tracked uniqueUserIds timeRangeInDays :
  Forall2 (tracked []) uniqueUserIds (bulkTasks this uniqueUserIds timeRangeInDays).
Proof.
  unfold bulkTasks. apply Forall2_fmap_r, Forall_Forall2_diag, Forall_forall.
  intros userId _. split.
  - apply returnsFor_bind.
  - left. apply logsBeforeThrow_bind; [apply calculateEngagementMetrics_logs|done].
Qed.

(** *** After all calls have settled *)

Lemma forEach_result_run userIdsCount results metricsMap w :
  ∃ t,
    run C (forEach_result userIdsCount results metricsMap) w
    = (Returned (collected results metricsMap), w, t).
Proof.
  revert metricsMap. induction results as [|[[userId metrics]|e] rest IH];
    intros metricsMap; simpl.
  - by eexists.
  - apply IH.
  - destruct (IH metricsMap) as [t Ht].
    change (logger LError "Failed to process user metrics"
              [("error", VError e); ("userIdsCount", VNumber userIdsCount)]
            ≫= λ _, forEach_result userIdsCount rest metricsMap)
      with (Log LError "Failed to process user metrics"
              [("error", VError e); ("userIdsCount", VNumber userIdsCount)]
              (forEach_result userIdsCount rest metricsMap)).
    cbn [run]. rewrite Ht. by eexists.
Qed.

Lemma bulkCollect_run uniqueUserIds results w :
  ∃ t,
    run C (bulkCollect uniqueUserIds results) w
    = (Returned (collected results ∅), w, t).
Proof.
  unfold bulkCollect. rewrite run_bind.
  destruct (forEach_result_run (Z.of_nat (length uniqueUserIds)) results ∅ w)
    as [t ->].
  simpl. by eexists.
Qed.

Lemma collected_lookup userIds results :
  NoDup userIds →
  Forall2 (λ userId result,
             ∀ u x, result = Returned (u, x) → u = userId) userIds results →
  ∀ metricsMap,
    (∀ u, u ∈ userIds → metricsMap !! u = None) →
    ∀ u x,
      collected results metricsMap !! u = Some x
      ↔ metricsMap !! u = Some x ∨ Returned (u, x) ∈ results.
Proof.
  intros Hnd Hall. revert Hnd.
  induction Hall as [|userId result userIds results Hhead Hall IH];
    intros Hnd metricsMap Hfresh u x.
  - simpl. rewrite elem_of_nil. tauto.
  - apply NoDup_cons in Hnd as [Hnotin Hnd].
    destruct result as [[u0 x0]|e]; simpl.
    + assert (u0 = userId) as -> by by eapply Hhead.
      rewrite (IH Hnd).
      * rewrite elem_of_cons. rewrite lookup_insert.
        destruct (decide (userId = u)) as [-> | Hne].
        -- rewrite (Hfresh u) by (by left). 
           split.
           ++ intros [[= ->] | Hin]; [right; by left | right; by right].
           ++ intros [? | [[= ->] | Hin]]; [done | by left | by right].
        -- split.
           ++ intros [? | ?]; [by left | right; by right].
           ++ intros [? | [[= ? ?] | ?]]; [by left | done | by right].
      * intros u' Hu'. rewrite lookup_insert_ne; [apply Hfresh; by right|].
        intros ->. done.
    + rewrite (IH Hnd).
      * rewrite elem_of_cons. split; [tauto|].
        intros [? | [? | ?]]; [by left | done | by right].
      * intros u' Hu'. apply Hfresh. by right.
Qed.

Lemma settled_tracked {A} t userId (p : Prog (string * A)) result :
  tracked t userId p → settled p = Some result →
  match result with
  | Returned (u, _) => u = userId
  | Threw _ => Exists (errorLoggedFor userId) t
  end.
Proof.
  intros [Hret Hlog] Hp. destruct p; simpl in Hp; simplify_eq.
  - simpl in Hret. by destruct a.
  - simpl in Hlog. by destruct Hlog.
Qed.

(** C3. [bulkProcessUserMetrics] has a schedule under which every call
    settles, and under whatever schedule its calls settle it returns a
    map, never throws. The map holds exactly the unique subject ids
    whose computation was fulfilled, each with the metrics computed for
    it; a subject whose computation was rejected has no entry, and an
    error record naming it is in the log. *)
Theorem bulk_partial_failure userIds timeRangeInDays w :
  let uniqueUserIds := Array_from_Set userIds in
  (∃ schedule,
     is_Some (bulkProcessUserMetrics C this userIds timeRangeInDays schedule w))
  ∧ ∀ schedule o w' t,
      bulkProcessUserMetrics C this userIds timeRangeInDays schedule w
      = Some (o, w', t) →
      ∃ metricsMap results,
        o = Returned metricsMap
        ∧ allSettled
            (run_pool C schedule
               (bulkTasks this uniqueUserIds timeRangeInDays) w).1.1
          = Some results
        ∧ NoDup uniqueUserIds
        ∧ (∀ userId, userId ∈ uniqueUserIds ↔ userId ∈ userIds)
        ∧ Forall2 (accountedFor metricsMap t) uniqueUserIds results
        ∧ (∀ userId metrics,
             metricsMap !! userId = Some metrics
             ↔ Returned (userId, metrics) ∈ results).
Proof.
  intros uniqueUserIds.
  destruct (Array_from_Set_spec userIds) as [Hnd Hmem].
  fold uniqueUserIds in Hnd, Hmem.
  split.
  - destruct (settle_all (bulkTasks this uniqueUserIds timeRangeInDays) w)
      as [schedule [results Hres]].
    exists schedule. unfold bulkProcessUserMetrics. fold uniqueUserIds.
    destruct (run_pool C schedule _ w) as [[tasks w1] t1]. cbn [fst] in Hres.
    rewrite Hres. simpl.
    destruct (bulkCollect_run uniqueUserIds results w1) as [t2 ->]. by eexists.
  - intros schedule o w' t. unfold bulkProcessUserMetrics. fold uniqueUserIds.
    pose proof (run_pool_tracked schedule uniqueUserIds
                  (bulkTasks this uniqueUserIds timeRangeInDays) w []
                  (bulkTasks_tracked uniqueUserIds timeRangeInDays)) as Htracked.
    destruct (run_pool C schedule _ w) as [[tasks w1] t1]. cbn [fst snd] in *.
    destruct (allSettled tasks) as [results|] eqn:Hres; simpl; [|done].
    destruct (bulkCollect_run uniqueUserIds results w1) as [t2 ->].
    intros [= <- <- <-].
    apply mapM_Some_1 in Hres as Hsettled.
    assert (Hfacts : Forall2 (λ userId result,
              match result with
              | Returned (u, _) => u = userId
              | Threw _ => Exists (errorLoggedFor userId) t1
              end) uniqueUserIds results).
    { eapply Forall2_trans; [|exact Htracked | exact Hsettled].
      intros userId p result Hp Hr. by eapply settled_tracked. }
    assert (Halign : Forall2 (λ userId result,
              ∀ u x, result = Returned (u, x) → u = userId)
              uniqueUserIds results).
    { eapply Forall2_impl; [exact Hfacts|].
      intros userId result Hr u x ->. done. }
    assert (Hlookup : ∀ userId metrics,
              collected results ∅ !! userId = Some metrics
              ↔ Returned (userId, metrics) ∈ results).
    { intros userId metrics.
      rewrite (collected_lookup uniqueUserIds results Hnd Halign ∅)
        by (intros; apply lookup_empty).
      rewrite lookup_empty. split; [by intros [?|?] | by right]. }
    exists (collected results ∅), results.
    split_and!; [done..| |done].
    apply Forall2_same_length_lookup. split; [by eapply Forall2_length|].
    intros i userId result Hi Hr.
    pose proof (Forall2_lookup_lr _ _ _ _ _ _ Hfacts Hi Hr) as Hfact.
    destruct result as [[u x]|e]; simpl in *; [done|]. split.
    + destruct (collected results ∅ !! userId) as [metrics|] eqn:Hin; [|done].
      apply Hlookup, list_elem_of_lookup in Hin as [j Hj].
      destruct (Forall2_lookup_r _ _ _ _ _ Halign Hj) as (u' & Hu' & Heq).
      specialize (Heq _ _ eq_refl). subst u'.
      assert (i = j) as -> by by eapply NoDup_lookup.
      congruence.
    + apply Exists_app. by left.
Qed.
End PoolFacts.

(** * Further properties *)

(** ** The aggregator and the order of the records *)

Section OrderFacts.
Context `{R : Runtime}.

#[local] Instance sameCounters_equiv : Equivalence sameCounters.
Proof.
  split.
  - intros c. by repeat split.
  - intros c1 c2 (H1 & H2 & H3 & H4 & H5). by repeat split.
  - intros c1 c2 c3 (H1 & H2 & H3 & H4 & H5) (K1 & K2 & K3 & K4 & K5).
    repeat split; try congruence. by rewrite H1.
Qed.

Lemma tally_totalDuration c a :
  (totalDuration (tally c a) == totalDuration c + durationOf a)%Q.
Proof.
  unfold tally, durationOf.
  destruct (Date_parse _); simpl; destruct (act_durationSec a) as [d|]; simpl;
    try (destruct (Qeq_bool d 0) eqn:Hd; [apply Qeq_bool_eq in Hd; rewrite Hd|]);
    ring.
Qed.

Lemma tally_latest c a :
  latestActivityDate (tally c a)
  = match timeOf a with
    | Some t => Z.max (latestActivityDate c) t
    | None => latestActivityDate c
    end.
Proof.
  unfold tally, timeOf. destruct (Date_parse _) as [t|]; simpl; [|done].
  destruct (Z.ltb_spec (latestActivityDate c) t); lia.
Qed.







End OrderFacts.

(** ** Durations and dates *)

Section DurationFacts.
Context `{R : Runtime}.

Lemma foldl_tally_totalDuration activities : ∀ c,
  (totalDuration (foldl tally c activities)
   == totalDuration c + durationSum activities)%Q.
Proof.
  induction activities as [|a rest IH]; intros c; simpl.
  - ring.
  - rewrite IH, tally_totalDuration. ring.
Qed.

Lemma latestTime_nonneg activities : 0 ≤ latestTime activities.
Proof.
  induction activities as [|a rest IH]; simpl; [done|].
  destruct (timeOf a); lia.
Qed.

Lemma foldl_tally_latest activities : ∀ c,
  0 ≤ latestActivityDate c →
  latestActivityDate (foldl tally c activities)
  = Z.max (latestActivityDate c) (latestTime activities).
Proof.
  induction activities as [|a rest IH]; intros c Hc; simpl.
  - lia.
  - rewrite IH by (rewrite tally_latest; destruct (timeOf a); lia).
    rewrite tally_latest. destruct (timeOf a); lia.
Qed.

Lemma latestTime_upper activities bound :
  0 ≤ bound →
  (∀ a t, a ∈ activities → timeOf a = Some t → t ≤ bound) →
  latestTime activities ≤ bound.
Proof.
  intros Hb. induction activities as [|a rest IH]; intros Hall; simpl; [done|].
  assert (latestTime rest ≤ bound).
  { apply IH. intros b t Hb'. apply Hall. by right. }
  destruct (timeOf a) as [t|] eqn:Ht; [|done].
  assert (t ≤ bound) by (apply (Hall a t); [by left | done]).
  lia.
Qed.

Lemma latestTime_lower activities a t :
  a ∈ activities → timeOf a = Some t → t ≤ latestTime activities.
Proof.
  induction activities as [|b rest IH]; intros Ha Ht.
  - by apply elem_of_nil in Ha.
  - simpl. apply elem_of_cons in Ha as [<- | Ha].
    + rewrite Ht. lia.
    + specialize (IH Ha Ht). destruct (timeOf b); lia.
Qed.

Lemma latestTime_none activities :
  (∀ a t, a ∈ activities → timeOf a = Some t → t ≤ 0) →
  latestTime activities = 0.
Proof.
  intros Hall. pose proof (latestTime_nonneg activities).
  pose proof (latestTime_upper activities 0 ltac:(lia) Hall). lia.
Qed.

Lemma processActivities_days currentDate activities :
  activities ≠ [] →
  daysSinceLastActivity (processActivities currentDate activities)
  = (currentDate - latestTime activities) / msPerDay.
Proof.
  intros Hne. unfold processActivities.
  destruct activities as [|a rest]; [done|].
  change (length (a :: rest) =? 0)%nat with false. cbv iota.
  cbn [daysSinceLastActivity].
  rewrite foldl_tally_latest by done.
  change (latestActivityDate initialCounters) with 0.
  pose proof (latestTime_nonneg (a :: rest)). by rewrite Z.max_r by lia.
Qed.

(** X2. For a non-empty record list, the days since the last activity count
    from the latest timestamp that parses and lies after the epoch, or from
    the epoch when there is none. They are never negative when no record is
    dated after the current date, and negative as soon as one record is. *)
Theorem daysSinceLastActivity_sign currentDate activities :
  activities ≠ [] →
  let days := daysSinceLastActivity (processActivities currentDate activities) in
  days = (currentDate - latestTime activities) / msPerDay
  ∧ (0 ≤ currentDate →
     (∀ a t, a ∈ activities → timeOf a = Some t → t ≤ currentDate) →
     0 ≤ days)
  ∧ (∀ a t, a ∈ activities → timeOf a = Some t → currentDate < t → days < 0)
  ∧ ((∀ a t, a ∈ activities → timeOf a = Some t → t ≤ 0) →
     days = currentDate / msPerDay).
Proof.
  intros Hne days. subst days. rewrite processActivities_days by done.
  split; [done|]. split; [|split].
  - intros Hnow Hall.
    pose proof (latestTime_upper activities currentDate Hnow Hall).
    apply Z.div_pos; [lia | done].
  - intros a t Ha Ht Hfuture.
    pose proof (latestTime_lower activities a t Ha Ht).
    apply Z.div_lt_upper_bound; [done | lia].
  - intros Hall. rewrite (latestTime_none activities Hall). f_equal. lia.
Qed.

Lemma Math_round_Z (z : Z) : Math_round (inject_Z z) = z.
Proof.
  unfold Math_round, Qfloor, Qplus, inject_Z. simpl.
  symmetry. apply Z.div_unique with (r := 1); lia.
Qed.

Lemma durationSum_bounds activities (D : Z) :
  (∀ a d, a ∈ activities → act_durationSec a = Some d →
          (0 <= d)%Q ∧ (d <= inject_Z D)%Q) →
  0 ≤ D →
  (0 <= durationSum activities)%Q
  ∧ (durationSum activities
     <= inject_Z (Z.of_nat (length activities)) * inject_Z D)%Q.
Proof.
  intros Hall HD. induction activities as [|a rest IH]; simpl durationSum.
  - split; [apply Qle_refl|]. simpl. rewrite Qmult_0_l. apply Qle_refl.
  - destruct IH as [IH0 IH1].
    { intros b d Hb. apply Hall. by right. }
    assert (Ha : (0 <= durationOf a)%Q ∧ (durationOf a <= inject_Z D)%Q).
    { unfold durationOf. destruct (act_durationSec a) as [d|] eqn:Hd; simpl.
      - apply (Hall a d); [by left | done].
      - split; [apply Qle_refl|]. change 0%Q with (inject_Z 0).
        by rewrite <- Zle_Qle. }
    destruct Ha as [Ha0 Ha1]. split.
    + change 0%Q with (0 + 0)%Q. by apply Qplus_le_compat.
    + replace (length (a :: rest)) with (S (length rest)) by done.
      rewrite Nat2Z.inj_succ. unfold Z.succ. rewrite inject_Z_plus.
      assert (Heq :
        ((inject_Z (Z.of_nat (length rest)) + inject_Z 1) * inject_Z D
         == inject_Z D + inject_Z (Z.of_nat (length rest)) * inject_Z D)%Q)
        by ring.
      rewrite Heq. by apply Qplus_le_compat.
Qed.

(** X3. The average duration is taken over all the records, those without a
    duration included: when every duration present lies between 0 and [D]
    seconds, the average lies between 0 and [D]. *)
Theorem averageDurationSec_bounds currentDate activities (D : Z) :
  0 ≤ D →
  (∀ a d, a ∈ activities → act_durationSec a = Some d →
          (0 <= d)%Q ∧ (d <= inject_Z D)%Q) →
  0 ≤ averageDurationSec (processActivities currentDate activities) ≤ D.
Proof.
  intros HD Hall. unfold processActivities.
  destruct activities as [|a rest]; [simpl; lia|].
  change (length (a :: rest) =? 0)%nat with false.
  change (0 <? length (a :: rest))%nat with true. cbv iota.
  cbn [averageDurationSec].
  destruct (durationSum_bounds (a :: rest) D Hall HD) as [H0 H1].
  set (n := inject_Z (Z.of_nat (length (a :: rest)))) in *.
  assert (Hn : (0 < n)%Q).
  { subst n. change 0%Q with (inject_Z 0). rewrite <- Zlt_Qlt. simpl. lia. }
  assert (Htotal : (totalDuration (foldl tally initialCounters (a :: rest))
                    == durationSum (a :: rest))%Q).
  { rewrite foldl_tally_totalDuration. simpl totalDuration. ring. }
  split.
  - rewrite <- (Math_round_Z 0). apply Math_round_mono.
    rewrite Htotal. apply Qle_shift_div_l; [done|].
    by rewrite Qmult_0_l.
  - rewrite <- (Math_round_Z D). apply Math_round_mono.
    rewrite Htotal. apply Qle_shift_div_r; [done|].
    by rewrite Qmult_comm.
Qed.

(** ** The most active hour is an hour of some record *)

Lemma hourCount_pos_elem h activities :
  (0 < hourCount h activities)%nat → ∃ a, a ∈ activities ∧ hourOf a = Some h.
Proof.
  unfold hourCount. intros Hpos.
  destruct (filter (λ a, hourOf a = Some h) activities) as [|a l] eqn:Hf;
    [simpl in Hpos; lia|].
  assert (Ha : a ∈ filter (λ a, hourOf a = Some h) activities)
    by (rewrite Hf; by left).
  apply list_elem_of_filter in Ha as [Ha1 Ha2]. eauto.
Qed.

Lemma hourCount_elem_pos h activities a :
  a ∈ activities → hourOf a = Some h → (0 < hourCount h activities)%nat.
Proof.
  intros Ha Hh. unfold hourCount.
  assert (Hin : a ∈ filter (λ a, hourOf a = Some h) activities)
    by by apply list_elem_of_filter.
  destruct (filter _ activities); [by apply elem_of_nil in Hin | simpl; lia].
Qed.

(** X4. When the timestamp of some record parses, the most active hour is
    the local hour of at least one record; when none parses, it is 0. *)
Theorem mostActiveHour_realised currentDate activities :
  let best := mostActiveHour (processActivities currentDate activities) in
  ((∃ a, a ∈ activities ∧ is_Some (hourOf a)) →
   ∃ a, a ∈ activities ∧ hourOf a = Some best)
  ∧ ((∀ a, a ∈ activities → hourOf a = None) → best = 0).
Proof.
  intros best. subst best. unfold processActivities.
  destruct activities as [|a0 rest].
  { split; [|done]. intros (a & Ha & _). by apply elem_of_nil in Ha. }
  change (length (a0 :: rest) =? 0)%nat with false. cbv iota.
  cbn [mostActiveHour].
  destruct (indexOf_max_first
              (hourCounts (foldl tally initialCounters (a0 :: rest)))
              (λ h, hourCount h (a0 :: rest)) 24 ltac:(lia)
              (hourCounts_length _)
              (λ i Hi, hourCounts_spec (a0 :: rest) i Hi))
    as (Hrange & Hmax & Hfirst).
  set (best := indexOf _ _) in *. split.
  - intros (a & Ha & [h Hh]).
    apply hourCount_pos_elem.
    pose proof (hourCount_elem_pos h _ a Ha Hh).
    pose proof (hourOf_range a h Hh).
    specialize (Hmax h ltac:(lia)). simpl in Hmax. lia.
  - intros Hnone. destruct (decide (best = 0)) as [|Hne]; [done|].
    specialize (Hfirst 0 ltac:(lia)). simpl in Hfirst.
    destruct (hourCount_pos_elem best (a0 :: rest) ltac:(lia)) as (a & Ha & Hh).
    rewrite (Hnone a Ha) in Hh. done.
Qed.
End DurationFacts.

(** ** The per-kind counts add up *)

Section KindSumFacts.
Context `{R : Runtime}.

Lemma countedRecords_insert counts k c :
  counts !! k = None →
  countedRecords (<[k := c]> counts) = (countOf c + countedRecords counts)%nat.
Proof.
  intros Hk. unfold countedRecords.
  apply (map_fold_insert_L (λ _ c total, (countOf c + total)%nat));
    [intros; lia | done].
Qed.

Lemma countedRecords_lookup counts k c :
  counts !! k = Some c →
  countedRecords counts = (countOf c + countedRecords (delete k counts))%nat.
Proof.
  intros Hk. unfold countedRecords.
  apply (map_fold_delete_L (λ _ c total, (countOf c + total)%nat));
    [intros; lia | done].
Qed.

Lemma count_type_adds_one counts t :
  t ∉ Object_prototype_names →
  (∀ k c, counts !! k = Some c → ∃ n, c = CountNumber n ∧ (0 < n)%nat) →
  (∀ k c, count_type counts t !! k = Some c →
     ∃ n, c = CountNumber n ∧ (0 < n)%nat)
  ∧ countedRecords (count_type counts t) = S (countedRecords counts).
Proof.
  intros Ht Hnum. unfold count_type.
  destruct (counts !! t) as [c|] eqn:Hlookup.
  - destruct (Hnum t c Hlookup) as (n & -> & Hn). split.
    + intros k c. destruct (decide (k = t)) as [->|Hne].
      * rewrite lookup_insert_eq. intros [= <-]. exists (n + 1)%nat.
        split; [done | lia].
      * rewrite lookup_insert_ne by done. apply Hnum.
    + rewrite (countedRecords_lookup counts t _ Hlookup).
      rewrite <- insert_delete_eq.
      rewrite countedRecords_insert by apply lookup_delete_eq.
      simpl. lia.
  - destruct (decide (t = "__proto__")) as [->|_].
    { exfalso. apply Ht. unfold Object_prototype_names.
      rewrite !elem_of_cons. tauto. }
    destruct (decide (t ∈ Object_prototype_names)) as [Hin|_]; [done|].
    split.
    + intros k c. destruct (decide (k = t)) as [->|Hne].
      * rewrite lookup_insert_eq. intros [= <-]. exists 1%nat.
        split; [done | lia].
      * rewrite lookup_insert_ne by done. apply Hnum.
    + by rewrite countedRecords_insert.
Qed.

Lemma typeCounts_fold_adds activities : ∀ c,
  Forall (λ a, act_type a ∉ Object_prototype_names) activities →
  (∀ k v, typeCounts c !! k = Some v → ∃ n, v = CountNumber n ∧ (0 < n)%nat) →
  (∀ k v, typeCounts (foldl tally c activities) !! k = Some v →
     ∃ n, v = CountNumber n ∧ (0 < n)%nat)
  ∧ countedRecords (typeCounts (foldl tally c activities))
    = (countedRecords (typeCounts c) + length activities)%nat.
Proof.
  induction activities as [|a rest IH]; intros c Hkinds Hnum.
  - simpl. split; [done | lia].
  - apply Forall_cons in Hkinds as [Hkind Hkinds]. cbn [foldl].
    destruct (count_type_adds_one (typeCounts c) (act_type a) Hkind Hnum)
      as [Hnum' Hsum'].
    rewrite <- tally_typeCounts in Hnum', Hsum'.
    destruct (IH (tally c a) Hkinds Hnum') as [Hnum'' Hsum''].
    split; [done|]. rewrite Hsum'', Hsum'. simpl. lia.
Qed.

(** X5. When no record carries a kind that is a name of [Object.prototype],
    every per-kind count is a positive number and the counts add up to the
    total of the records. *)
Theorem kind_counts_add_up currentDate activities :
  Forall (λ a, act_type a ∉ Object_prototype_names) activities →
  let metrics := processActivities currentDate activities in
  (∀ k c, activityByType metrics !! k = Some c →
     ∃ n, c = CountNumber n ∧ (0 < n)%nat)
  ∧ Z.of_nat (countedRecords (activityByType metrics))
    = totalActivities metrics.
Proof.
  intros Hkinds metrics. subst metrics.
  rewrite activityByType_typeCounts.
  destruct (typeCounts_fold_adds activities initialCounters Hkinds)
    as [Hnum Hsum].
  { intros k v. change (typeCounts initialCounters) with (∅ : gmap string JsCount).
    by rewrite lookup_empty. }
  split; [done|]. rewrite Hsum.
  change (countedRecords (typeCounts initialCounters)) with 0%nat.
  unfold processActivities. by destruct (length activities =? 0)%nat.
Qed.
End KindSumFacts.

(** ** The engagement score as a function of the metrics *)

Section ScoreFacts.
Context `{R : Runtime}.

Lemma calculateEngagementScore_weightedSum metrics :
  calculateEngagementScore metrics
  = Z.min 100 (Z.max 0 (Math_round
      (weightedSum (totalActivities metrics) (daysSinceLastActivity metrics)
         (averageDurationSec metrics)
         (Z.of_nat (size (activityByType metrics)))))).
Proof. done. Qed.

Lemma inject_Z_div_le (x y : Z) (d : Q) :
  (0 < d)%Q → x ≤ y → (inject_Z x / d <= inject_Z y / d)%Q.
Proof.
  intros Hd Hxy. apply Qmult_le_compat_r.
  - by rewrite <- Zle_Qle.
  - apply Qlt_le_weak, Qinv_lt_0_compat, Hd.
Qed.

Lemma weightedSum_monotone total days1 days2 avg1 avg2 kinds1 kinds2 :
  days2 ≤ days1 → avg1 ≤ avg2 → kinds1 ≤ kinds2 →
  (weightedSum total days1 avg1 kinds1 <= weightedSum total days2 avg2 kinds2)%Q.
Proof.
  intros Hdays Havg Hkinds. unfold weightedSum.
  repeat apply Qplus_le_compat.
  - apply Qle_refl.
  - apply Qmult_le_compat_r; [|done].
    apply Q.max_le_compat_l.
    apply Qplus_le_r, Qopp_le_compat. by apply inject_Z_div_le.
  - apply Qmult_le_compat_r; [|done].
    apply Q.min_le_compat_l. by apply inject_Z_div_le.
  - apply Qmult_le_compat_r; [|done].
    apply Q.min_le_compat_l. by apply inject_Z_div_le.
Qed.

(** X6. The score rewards recency, duration and diversity: of two metrics
    with the same total, the one with the more recent last activity, the
    longer average duration and the more distinct kinds never scores lower. *)
Theorem calculateEngagementScore_monotone m1 m2 :
  totalActivities m1 = totalActivities m2 →
  daysSinceLastActivity m2 ≤ daysSinceLastActivity m1 →
  averageDurationSec m1 ≤ averageDurationSec m2 →
  (size (activityByType m1) ≤ size (activityByType m2))%nat →
  calculateEngagementScore m1 ≤ calculateEngagementScore m2.
Proof.
  intros Htotal Hdays Havg Hkinds.
  rewrite !calculateEngagementScore_weightedSum, Htotal.
  assert (Math_round (weightedSum (totalActivities m2) (daysSinceLastActivity m1)
                        (averageDurationSec m1)
                        (Z.of_nat (size (activityByType m1))))
          ≤ Math_round (weightedSum (totalActivities m2) (daysSinceLastActivity m2)
                          (averageDurationSec m2)
                          (Z.of_nat (size (activityByType m2))))).
  { apply Math_round_mono, weightedSum_monotone; lia. }
  lia.
Qed.

Lemma Qmin_1_saturates (x cap : Z) :
  0 < cap →
  (Qmin 1 (inject_Z x / inject_Z cap)
   == Qmin 1 (inject_Z (Z.min x cap) / inject_Z cap))%Q.
Proof.
  intros Hcap.
  assert (Hc : (0 < inject_Z cap)%Q)
    by (change 0%Q with (inject_Z 0); by rewrite <- Zlt_Qlt).
  destruct (Z.le_gt_cases x cap) as [Hle | Hgt].
  - by rewrite Z.min_l.
  - rewrite Z.min_r by lia.
    assert (H1 : (1 <= inject_Z x / inject_Z cap)%Q).
    { apply Qle_shift_div_l; [done|]. rewrite Qmult_1_l, <- Zle_Qle. lia. }
    assert (H2 : (1 <= inject_Z cap / inject_Z cap)%Q).
    { apply Qle_shift_div_l; [done|]. rewrite Qmult_1_l. apply Qle_refl. }
    by rewrite !Q.min_l.
Qed.

Lemma Qmax_0_saturates (x : Z) :
  (Qmax 0 (1 - inject_Z x / 30) == Qmax 0 (1 - inject_Z (Z.min x 30) / 30))%Q.
Proof.
  destruct (Z.le_gt_cases x 30) as [Hle | Hgt].
  - by rewrite Z.min_l.
  - rewrite Z.min_r by lia.
    assert (H1 : (1 - inject_Z x / 30 <= 0)%Q).
    { apply (Qplus_le_l _ _ (inject_Z x / 30)).
      assert (Heq : (1 - inject_Z x / 30 + inject_Z x / 30 == 1)%Q) by ring.
      rewrite Heq, Qplus_0_l.
      apply Qle_shift_div_l; [done|]. 
      change (1 * 30)%Q with (inject_Z 30). rewrite <- Zle_Qle. lia. }
    assert (H2 : (1 - inject_Z 30 / 30 <= 0)%Q) by done.
    by rewrite !Q.max_l.
Qed.

(** X7. The factors saturate: an average duration beyond 300 seconds counts
    as 300, more than 5 kinds count as 5, and a last activity more than 30
    days old counts as 30 days old. *)
Theorem calculateEngagementScore_caps m1 m2 :
  totalActivities m1 = totalActivities m2 →
  Z.min (daysSinceLastActivity m1) 30 = Z.min (daysSinceLastActivity m2) 30 →
  Z.min (averageDurationSec m1) 300 = Z.min (averageDurationSec m2) 300 →
  (size (activityByType m1) `min` 5 = size (activityByType m2) `min` 5)%nat →
  calculateEngagementScore m1 = calculateEngagementScore m2.
Proof.
  intros Htotal Hdays Havg Hkinds.
  rewrite !calculateEngagementScore_weightedSum, Htotal.
  do 2 f_equal. unfold Math_round. apply Qfloor_comp.
  unfold weightedSum.
  rewrite (Qmax_0_saturates (daysSinceLastActivity m1)),
    (Qmax_0_saturates (daysSinceLastActivity m2)), Hdays.
  change 300%Q with (inject_Z 300). change 5%Q with (inject_Z 5).
  rewrite (Qmin_1_saturates (averageDurationSec m1) 300),
    (Qmin_1_saturates (averageDurationSec m2) 300), Havg by done.
  rewrite (Qmin_1_saturates (Z.of_nat (size (activityByType m1))) 5),
    (Qmin_1_saturates (Z.of_nat (size (activityByType m2))) 5) by done.
  replace (Z.min (Z.of_nat (size (activityByType m1))) 5)
    with (Z.min (Z.of_nat (size (activityByType m2))) 5) by lia.
  reflexivity.
Qed.
End ScoreFacts.

(** ** Strings *)

Lemma append_assoc_string (a b c : string) : (a +:+ b) +:+ c = a +:+ (b +:+ c).
Proof.
  induction a as [|x a IH]; [done|].
  change (String x ((a +:+ b) +:+ c) = String x (a +:+ (b +:+ c))).
  by f_equal.
Qed.

Lemma append_empty_string (a : string) : a +:+ "" = a.
Proof.
  induction a as [|x a IH]; [done|].
  change (String x (a +:+ "") = String x a). by f_equal.
Qed.


(** ** Cache keys: what they separate *)

Lemma byte_values_complete (a : N) : (a < 256)%N → In a byte_values.
Proof.
  intros Ha. unfold byte_values. rewrite <- (N2Nat.id a).
  apply in_map, in_seq. lia.
Qed.

Lemma sextets_ok_all :
  forallb (λ a, forallb (sextets_ok a) byte_values) byte_values = true.
Proof. vm_compute. reflexivity. Qed.

Lemma sextets_ok_bytes (a b : N) :
  (a < 256)%N → (b < 256)%N → sextets_ok a b = true.
Proof.
  intros Ha Hb. pose proof sextets_ok_all as Hall.
  rewrite forallb_forall in Hall.
  specialize (Hall a (byte_values_complete a Ha)).
  rewrite forallb_forall in Hall. by apply Hall, byte_values_complete.
Qed.

Lemma base64_value_digit (n : N) :
  (n < 64)%N → base64_value (base64_digit n) = Some n.
Proof.
  intros Hn. destruct n as [|p]; [reflexivity|].
  do 6 (try destruct p as [p|p|]); first [exfalso; lia | reflexivity].
Qed.

Lemma base64_decode_encode_fuel (n : nat) : ∀ bytes : list N,
  (length bytes ≤ n)%nat → Forall (λ a, (a < 256)%N) bytes →
  base64_decode (base64_encode bytes) = Some bytes.
Proof.
  induction n as [|n IH]; intros bytes Hlen Hbytes.
  { destruct bytes; [done | simpl in Hlen; lia]. }
  destruct bytes as [|a [|b [|c rest]]]; [done | | |].
  - apply Forall_cons in Hbytes as [Ha _].
    pose proof (sextets_ok_bytes a 0 Ha ltac:(lia)) as Hok.
    unfold sextets_ok in Hok. cbv zeta in Hok.
    rewrite !andb_true_iff, !N.ltb_lt, !N.eqb_eq in Hok.
    destruct Hok as (((((((((((((H0 & H1) & H1') & H2) & H2') & H3) & Ha1) & Ha1')
                       & Hb1) & Hb2) & Hb2') & Hc1) & Hb3) & Hc3).
    cbn [base64_encode base64_decode].
    rewrite !base64_value_digit by done.
    change (base64_value "=") with (@None N). cbv iota zeta. by rewrite Ha1'.
  - apply Forall_cons in Hbytes as [Ha Hbytes].
    apply Forall_cons in Hbytes as [Hb _].
    pose proof (sextets_ok_bytes a b Ha Hb) as Hok.
    pose proof (sextets_ok_bytes b 0 Hb ltac:(lia)) as Hok'.
    unfold sextets_ok in Hok, Hok'. cbv zeta in Hok, Hok'.
    rewrite !andb_true_iff, !N.ltb_lt, !N.eqb_eq in Hok, Hok'.
    destruct Hok as (((((((((((((H0 & H1) & H1') & H2) & H2') & H3) & Ha1) & Ha1')
                       & Hb1) & Hb2) & Hb2') & Hc1) & Hb3) & Hc3).
    destruct Hok' as (((((((((((((G0 & G1) & G1') & G2) & G2') & G3) & Ga1) & Ga1')
                       & Gb1) & Gb2) & Gb2') & Gc1) & Gb3) & Gc3).
    cbn [base64_encode base64_decode].
    rewrite !base64_value_digit by done.
    change (base64_value "=") with (@None N). cbv iota zeta.
    by rewrite Ha1, Hb1, Gb2', Gb3.
  - apply Forall_cons in Hbytes as [Ha Hbytes].
    apply Forall_cons in Hbytes as [Hb Hbytes].
    apply Forall_cons in Hbytes as [Hc Hbytes].
    pose proof (sextets_ok_bytes a b Ha Hb) as Hok.
    pose proof (sextets_ok_bytes b c Hb Hc) as Hok'.
    pose proof (sextets_ok_bytes c 0 Hc ltac:(lia)) as Hok''.
    unfold sextets_ok in Hok, Hok', Hok''. cbv zeta in Hok, Hok', Hok''.
    rewrite !andb_true_iff, !N.ltb_lt, !N.eqb_eq in Hok, Hok', Hok''.
    destruct Hok as (((((((((((((H0 & H1) & H1') & H2) & H2') & H3) & Ha1) & Ha1')
                       & Hb1) & Hb2) & Hb2') & Hc1) & Hb3) & Hc3).
    destruct Hok' as (((((((((((((G0 & G1) & G1') & G2) & G2') & G3) & Ga1) & Ga1')
                       & Gb1) & Gb2) & Gb2') & Gc1) & Gb3) & Gc3).
    destruct Hok'' as (((((((((((((K0 & K1) & K1') & K2) & K2') & K3) & Ka1) & Ka1')
                       & Kb1) & Kb2) & Kb2') & Kc1) & Kb3) & Kc3).
    cbn [base64_encode base64_decode].
    rewrite !base64_value_digit by done. cbv iota zeta.
    rewrite (IH rest) by (simpl in Hlen; done || lia).
    by rewrite Ha1, Hb1, Gb2, Gb3, Gc1, Kc3.
Qed.

Lemma base64_encode_inj (bytes1 bytes2 : list N) :
  Forall (λ a, (a < 256)%N) bytes1 → Forall (λ a, (a < 256)%N) bytes2 →
  base64_encode bytes1 = base64_encode bytes2 → bytes1 = bytes2.
Proof.
  intros H1 H2 Heq.
  pose proof (base64_decode_encode_fuel (length bytes1) bytes1 (le_n _) H1) as D1.
  pose proof (base64_decode_encode_fuel (length bytes2) bytes2 (le_n _) H2) as D2.
  rewrite Heq in D1. congruence.
Qed.

Lemma list_ascii_of_string_inj (s1 s2 : string) :
  list_ascii_of_string s1 = list_ascii_of_string s2 → s1 = s2.
Proof.
  intros Heq. rewrite <- (string_of_list_ascii_of_string s1),
    <- (string_of_list_ascii_of_string s2). by rewrite Heq.
Qed.

Lemma N_of_ascii_inj (a b : ascii) : N_of_ascii a = N_of_ascii b → a = b.
Proof.
  intros Heq. rewrite <- (ascii_N_embedding a), <- (ascii_N_embedding b).
  by rewrite Heq.
Qed.

Lemma Buffer_toBase64_inj (s1 s2 : string) :
  Buffer_toBase64 s1 = Buffer_toBase64 s2 → s1 = s2.
Proof.
  unfold Buffer_toBase64. intros Heq.
  apply base64_encode_inj in Heq.
  - apply list_ascii_of_string_inj.
    revert Heq. generalize (list_ascii_of_string s1) (list_ascii_of_string s2).
    induction l as [|a l IH]; intros [|b l'] Heq; simplify_eq/=; [done|].
    f_equal; [by apply N_of_ascii_inj | by apply IH].
  - apply Forall_forall. intros n [a [-> _]]%list_elem_of_fmap.
    apply N_ascii_bounded.
  - apply Forall_forall. intros n [a [-> _]]%list_elem_of_fmap.
    apply N_ascii_bounded.
Qed.

Lemma append_eq_empty (a b : string) : a +:+ b = "" → a = "" ∧ b = "".
Proof. destruct a; [done|]. intros Heq. discriminate Heq. Qed.

Lemma join_eq_empty sep (parts : list string) :
  join sep parts = "" → Forall (λ p, p = "") parts.
Proof.
  induction parts as [|p [|q rest] IH]; intros Heq.
  - constructor.
  - simpl in Heq. by repeat constructor.
  - change (p +:+ sep +:+ join sep (q :: rest) = "") in Heq.
    apply append_eq_empty in Heq as [-> [-> Heq]%append_eq_empty].
    constructor; [done | by apply IH].
Qed.

Section KeyFacts.
Context `{R : Runtime}.

Lemma filterString_eq_empty (entries : JsObject) :
  filterString entries = "" → entries = [].
Proof.
  unfold filterString. intros Heq%join_eq_empty.
  destruct entries as [|e entries]; [done|].
  apply Forall_cons in Heq as [Heq _].
  apply append_eq_empty in Heq as [_ Heq]. discriminate Heq.
Qed.

(** The text that the tag of a key encodes: the surviving fields as
    [key=value] joined by [&], in the order of their keys. *)
Lemma generateCacheKey_tag prefix userId filter :
  let base := "user-activity:" +:+ userId +:+ ":" +:+ prefix in
  let text := filterString (sortedEntries (default [] filter)) in
  generateCacheKey prefix userId filter
  = base +:+ (if decide (text = "") then ""
              else ":" +:+ Buffer_toBase64 text).
Proof.
  intros base text. subst text. unfold generateCacheKey. fold base.
  assert (Hnone : base = base +:+ (if decide (filterString [] = "") then ""
                                   else ":" +:+ Buffer_toBase64 (filterString []))).
  { destruct (decide (filterString [] = "")) as [_|Hne];
      [by rewrite append_empty_string | by destruct Hne]. }
  destruct filter as [f|]; cbn [default from_option id]; [|exact Hnone].
  destruct f as [|e f]; [exact Hnone|].
  change (0 <? length (e :: f))%nat with true. cbv iota zeta.
  destruct (sortedEntries (e :: f)) as [|e' sorted] eqn:Hsorted; [exact Hnone|].
  change (0 <? length (e' :: sorted))%nat with true. cbv iota.
  destruct (decide (filterString (e' :: sorted) = "")) as [Hempty|_]; [|done].
  by apply filterString_eq_empty in Hempty.
Qed.

Lemma generateCacheKey_text_inj prefix userId filter1 filter2 :
  generateCacheKey prefix userId filter1 = generateCacheKey prefix userId filter2 →
  filterString (sortedEntries (default [] filter1))
  = filterString (sortedEntries (default [] filter2)).
Proof.
  rewrite !generateCacheKey_tag. intros Heq%(inj (String.append _)).
  destruct (decide (filterString (sortedEntries (default [] filter1)) = ""))
    as [H1|H1],
    (decide (filterString (sortedEntries (default [] filter2)) = ""))
    as [H2|H2]; [congruence | discriminate Heq | discriminate Heq |].
  apply (inj (String.append ":")) in Heq. by apply Buffer_toBase64_inj.
Qed.

(** X8. For one user and one namespace, two filters share a cache key
    exactly when their surviving fields print to the same text
    [key=value&...]: the tag loses nothing of that text, and the key holds
    nothing else of the filter. (A text is its UTF-8 bytes, which is what
    [Buffer.from] encodes.) *)
Theorem generateCacheKey_separates_by_text prefix userId filter1 filter2 :
  generateCacheKey prefix userId filter1 = generateCacheKey prefix userId filter2
  ↔ filterString (sortedEntries (default [] filter1))
    = filterString (sortedEntries (default [] filter2)).
Proof.
  split; [apply generateCacheKey_text_inj|].
  rewrite !generateCacheKey_tag. by intros ->.
Qed.

Lemma Number_toString_inj (n m : Z) :
  Number_toString n = Number_toString m → n = m.
Proof.
  unfold Number_toString. intros Heq.
  assert (Hnonnil : ∀ z, Z.to_int z ≠ Decimal.Pos Decimal.Nil
                         ∧ Z.to_int z ≠ Decimal.Neg Decimal.Nil).
  { intros [|p|p]; simpl; split; try done.
    - intros [= H]. by apply (Unsigned.to_uint_nonnil p).
    - intros [= H]. by apply (Unsigned.to_uint_nonnil p). }
  apply DecimalZ.to_int_inj.
  destruct (Hnonnil n) as [Hn1 Hn2], (Hnonnil m) as [Hm1 Hm2].
  pose proof (NilZero.isi _ Hn1 Hn2) as In.
  pose proof (NilZero.isi _ Hm1 Hm2) as Im.
  rewrite Heq in In. congruence.
Qed.

(** X9. The metrics of one user for two different time ranges are never
    cached under one key; a range of 0 days and no range, which ask for the
    same records, still have keys of their own. *)
Theorem metrics_key_separates_time_ranges userId (range1 range2 : option Z) :
  range1 ≠ range2 →
  generateCacheKey "metrics" userId
    (Some [("timeRangeInDays", optional_number range1)])
  ≠ generateCacheKey "metrics" userId
      (Some [("timeRangeInDays", optional_number range2)]).
Proof.
  intros Hne Heq. apply Hne.
  apply generateCacheKey_text_inj in Heq.
  cbn [default from_option id] in Heq.
  assert (Htext : ∀ range,
    filterString (sortedEntries [("timeRangeInDays", optional_number range)])
    = match range with
      | Some days => "timeRangeInDays=" +:+ Number_toString days
      | None => ""
      end).
  { intros [days|]; reflexivity. }
  rewrite !Htext in Heq.
  destruct range1 as [days1|], range2 as [days2|];
    [| discriminate Heq | discriminate Heq | done].
  apply (inj (String.append "timeRangeInDays=")) in Heq.
  by apply Number_toString_inj in Heq as ->.
Qed.

(** X10. A key does not tell the boundary between two fields from text
    inside a value: a filter by a path that ends in [&type=] and a kind has
    the key of the filter by the path before it and that kind. (The host is
    to order the field name [path] before [type], as collations do.) *)
Theorem generateCacheKey_merges_fields prefix userId path kind :
  localeCompare "path" "type" = Lt →
  generateCacheKey prefix userId
    (Some [("path", JsString (path +:+ "&type=" +:+ kind))])
  = generateCacheKey prefix userId
      (Some [("path", JsString path); ("type", JsString kind)]).
Proof.
  intros Horder. rewrite !generateCacheKey_tag.
  cbn [default from_option id].
  assert (Hsorted : sortedEntries [("path", JsString path); ("type", JsString kind)]
                    = [("path", JsString path); ("type", JsString kind)]).
  { unfold sortedEntries, Array_sort.
    rewrite !filter_cons_True by done. rewrite filter_nil.
    cbn [foldr insert_sorted]. unfold compareEntries. cbn [fst].
    by rewrite Horder. }
  rewrite Hsorted.
  change (sortedEntries [("path", JsString (path +:+ "&type=" +:+ kind))])
    with [("path", JsString (path +:+ "&type=" +:+ kind))].
  assert (Htext : filterString [("path", JsString (path +:+ "&type=" +:+ kind))]
                  = filterString [("path", JsString path); ("type", JsString kind)]).
  { unfold filterString. cbn [map join fst snd String_of].
    by rewrite !append_assoc_string. }
  by rewrite Htext.
Qed.
End KeyFacts.

(** ** The metrics cache and the propagation of errors *)

Section MetricsFacts.
Context `{R : Runtime}.
Context `{JA : Json (list UserActivity)} `{JM : Json EngagementMetrics}.
Context {W : Type} (C : Collaborators W).
Variable this : UserActivityService.

Lemma cacheReads_app t1 t2 : cacheReads (t1 ++ t2) = cacheReads t1 ++ cacheReads t2.
Proof. apply omap_app. Qed.

Lemma errorMessages_app t1 t2 :
  errorMessages (t1 ++ t2) = errorMessages t1 ++ errorMessages t2.
Proof. apply omap_app. Qed.

Lemma getFromCache_trace {T} `{Json T} key w :
  let t := (run C (getFromCache (T:=T) key) w).2 in
  cacheReads t = [key] ∧ errorMessages t = []
  ∧ axiosCalls t = [] ∧ cacheWrites t = [].
Proof.
  rewrite getFromCache_run. destruct (redis_get C key w) as [answer w1].
  by destruct (readAnswer answer).
Qed.

Lemma setInCache_trace {T} `{Json T} key (data : T) ttl w :
  let t := (run C (setInCache key data ttl) w).2 in
  cacheReads t = [] ∧ errorMessages t = [] ∧ axiosCalls t = []
  ∧ cacheWrites t = [(key, ttl, JSON_stringify data)].
Proof.
  rewrite setInCache_run.
  by destruct (redis_setex C key ttl (JSON_stringify data) w) as [[e|[]] w1].
Qed.

Lemma handleError_trace message error context w :
  let t := (run C (handleError message error context) w).2 in
  cacheReads t = [] ∧ errorMessages t = [message] ∧ axiosCalls t = []
  ∧ cacheWrites t = []
  ∧ ∀ entry, entry ∈ context → ∃ level context',
      EvLog level message context' ∈ t ∧ level = LError ∧ entry ∈ context'.
Proof.
  destruct (handleError_run C message error context w) as [context' ->].
  cbn [snd]. split_and!; [done..|].
  intros entry Hentry. exists LError, (context ++ context').
  split_and!; [apply list_elem_of_singleton; done | done |].
  apply elem_of_app. by left.
Qed.

Lemma handleError_names message error userId w :
  Exists (errorLoggedFor userId)
    (run C (handleError message error [("userId", VString userId)]) w).2.
Proof.
  destruct (handleError_run C message error
              [("userId", VString userId)] w) as [context' ->].
  apply Exists_cons_hd. simpl. apply elem_of_cons. by left.
Qed.

(** X11. The metrics cache of [calculateEngagementMetrics]. A stored value
    is returned after the one read of the metrics key, with no request to
    the remote source, no write and no further read. Otherwise the metrics
    are computed: when the computation returns, its result is returned and
    written last, under the metrics key with [metricsTtlSec]; when it
    throws, the error is thrown unchanged, nothing is written for the
    metrics, and the last error record is that of
    [calculateEngagementMetrics], naming the user. *)
Theorem metrics_cache_aside userId timeRangeInDays w :
  let key :=
    generateCacheKey "metrics" userId
      (Some [("timeRangeInDays", optional_number timeRangeInDays)]) in
  let ttl := metricsTtlSec (cacheConfig this) in
  let w1 := (redis_get C key w).2 in
  let '(o, w', t) :=
    run C (calculateEngagementMetrics this userId timeRangeInDays) w in
  match storedValue (redis_get C key w).1 with
  | Some cached =>
      o = Returned cached ∧ w' = w1 ∧ cacheReads t = [key]
      ∧ axiosCalls t = [] ∧ cacheWrites t = []
  | None =>
      let '(o2, w2, t2) :=
        run C (computeMetrics this userId timeRangeInDays) w1 in
      match o2 with
      | Returned metrics =>
          o = Returned metrics
          ∧ cacheWrites t = cacheWrites t2 ++ [(key, ttl, JSON_stringify metrics)]
      | Threw e =>
          o = Threw e ∧ w' = w2 ∧ cacheWrites t = cacheWrites t2
          ∧ last (errorMessages t)
            = Some "Failed to calculate engagement metrics"
          ∧ Exists (errorLoggedFor userId) t
      end
  end.
Proof.
  intros key ttl w1. subst w1.
  rewrite calculateEngagementMetrics_run. fold key.
  destruct (getFromCache_trace (T:=EngagementMetrics) key w)
    as (Hreads & Herrors & Hcalls & Hwrites).
  destruct (redis_get C key w) as [answer w1]. cbn [fst snd] in *.
  destruct (storedValue answer) as [cached|].
  - rewrite cacheReads_app, axiosCalls_app, cacheWrites_app.
    rewrite Hreads, Hcalls, Hwrites. done.
  - destruct (run C (computeMetrics this userId timeRangeInDays) w1)
      as [[[metrics|e] w2] t2].
    + destruct (setInCache_trace key metrics ttl w2)
        as (_ & _ & _ & Hset). fold ttl.
      destruct (run C (setInCache key metrics ttl) w2) as [[o3 w3] t3].
      cbn [snd] in Hset. split; [done|].
      by rewrite !cacheWrites_app, Hwrites, Hset.
    + destruct (handleError_trace "Failed to calculate engagement metrics" e
                  [("userId", VString userId)] w2)
        as (_ & Hmsg & _ & Hnone & _).
      pose proof (handleError_names "Failed to calculate engagement metrics" e
                    userId w2) as Hnamed.
      destruct (run C (handleError _ e _) w2) as [[o3 w3] t3].
      cbn [snd] in *. split_and!; [done..| | |].
      * by rewrite !cacheWrites_app, Hwrites, Hnone, app_nil_r.
      * rewrite !errorMessages_app, Hmsg, !app_assoc. apply last_snoc.
      * apply Exists_app. right. apply Exists_app. by right.
Qed.

Lemma timeRangeFilter_run timeRangeInDays w :
  ∃ o, run C (timeRangeFilter timeRangeInDays) w = (o, w, []).
Proof.
  unfold timeRangeFilter.
  destruct (truthy (optional_number timeRangeInDays)); [|by eexists].
  change (run C (NewDate Ret ≫= λ now,
            toISOString (UTC (LocalTime now - default 0 timeRangeInDays * msPerDay))
            ≫= λ iso, Ret [("startDate", JsString iso)]) w)
    with (run C (toISOString (UTC (LocalTime (clock C w)
                                   - default 0 timeRangeInDays * msPerDay))
                 ≫= λ iso, Ret [("startDate", JsString iso)]) w).
  unfold toISOString. destruct (Z.abs _ <=? _); by eexists.
Qed.

(** X12. A rejection by the remote source passes through both layers: when
    neither cache holds a value and the request for the records is rejected,
    [calculateEngagementMetrics] throws the error of the request unchanged,
    after exactly two error records, the one of [getUserActivity] and then
    its own, and after no write to the store. *)
Theorem remote_failure_logged_by_both_layers
    userId timeRangeInDays w filter e :
  let key :=
    generateCacheKey "metrics" userId
      (Some [("timeRangeInDays", optional_number timeRangeInDays)]) in
  let w1 := (redis_get C key w).2 in
  let activityKey := generateCacheKey "activity" userId (Some filter) in
  let w2 := (redis_get C activityKey w1).2 in
  storedValue (T:=EngagementMetrics) (redis_get C key w).1 = None →
  (run C (timeRangeFilter timeRangeInDays) w1).1.1 = Returned filter →
  storedValue (T:=list UserActivity) (redis_get C activityKey w1).1 = None →
  (axios_get C (activityEndpoint this userId)
     (activityRequest this (Some filter)) w2).1 = inl e →
  let '(o, w', t) :=
    run C (calculateEngagementMetrics this userId timeRangeInDays) w in
  o = Threw e
  ∧ errorMessages t = ["Failed to fetch user activity";
                       "Failed to calculate engagement metrics"]
  ∧ cacheReads t = [key; activityKey]
  ∧ cacheWrites t = []
  ∧ axiosCalls t
    = [(activityEndpoint this userId, activityRequest this (Some filter))].
Proof.
  intros key w1 activityKey w2 Hmiss Hfilter Hmiss2 Hreject. subst w1 w2.
  rewrite calculateEngagementMetrics_run. fold key.
  destruct (getFromCache_trace (T:=EngagementMetrics) key w)
    as (Hreads & Herrors & Hcalls & Hwrites).
  destruct (redis_get C key w) as [answer w1]. cbn [fst snd] in *.
  rewrite Hmiss. unfold computeMetrics. rewrite run_bind.
  destruct (timeRangeFilter_run timeRangeInDays w1) as [o1 Hrun1].
  rewrite Hrun1 in Hfilter |- *. cbn [fst snd] in Hfilter. subst o1.
  rewrite run_bind, getUserActivity_run. fold activityKey.
  destruct (getFromCache_trace (T:=list UserActivity) activityKey w1)
    as (Hreads2 & Herrors2 & Hcalls2 & Hwrites2).
  destruct (redis_get C activityKey w1) as [answer2 w2]. cbn [fst snd] in *.
  rewrite Hmiss2.
  destruct (axios_get C _ _ w2) as [response w3]. cbn [fst] in Hreject.
  subst response.
  destruct (handleError_trace "Failed to fetch user activity" e
              [("userId", VString userId)] w3) as (Hr3 & Hm3 & Hc3 & Hw3 & _).
  destruct (run C (handleError "Failed to fetch user activity" e _) w3)
    as [[o3 w4] t3]. cbn [snd] in *.
  destruct (handleError_trace "Failed to calculate engagement metrics" e
              [("userId", VString userId)] w3) as (Hr4 & Hm4 & Hc4 & Hw4 & _).
  destruct (run C (handleError "Failed to calculate engagement metrics" e _) w3)
    as [[o4 w5] t4]. cbn [snd] in *.
  split; [done|].
  rewrite !errorMessages_app, !cacheReads_app, !cacheWrites_app, !axiosCalls_app.
  change (errorMessages (_ :: _ :: t3)) with (errorMessages t3).
  change (cacheReads (_ :: _ :: t3)) with (cacheReads t3).
  change (cacheWrites (_ :: _ :: t3)) with (cacheWrites t3).
  change (axiosCalls (_ :: ?request :: t3))
    with ((activityEndpoint this userId, activityRequest this (Some filter))
          :: axiosCalls t3).
  rewrite Herrors, Herrors2, Hm3, Hm4, Hreads, Hreads2, Hr3, Hr4, Hwrites,
    Hwrites2, Hw3, Hw4, Hcalls, Hcalls2, Hc3, Hc4.
  done.
Qed.

(** X13. A time range so long that the start date leaves the range of time
    values makes [toISOString] throw: on a miss of the metrics cache
    [calculateEngagementMetrics] throws that error before the records are
    looked up, so after the one read of the metrics key and with no request
    to the remote source, and logs it once. *)
Theorem time_range_beyond_dates_throws userId days w :
  let key :=
    generateCacheKey "metrics" userId
      (Some [("timeRangeInDays", JsNumber days)]) in
  let w1 := (redis_get C key w).2 in
  days ≠ 0 →
  storedValue (T:=EngagementMetrics) (redis_get C key w).1 = None →
  8640000000000000 < Z.abs (UTC (LocalTime (clock C w1) - days * msPerDay)) →
  let '(o, w', t) :=
    run C (calculateEngagementMetrics this userId (Some days)) w in
  o = Threw (Error "Invalid time value") ∧ w' = w1
  ∧ cacheReads t = [key] ∧ axiosCalls t = [] ∧ cacheWrites t = []
  ∧ errorMessages t = ["Failed to calculate engagement metrics"].
Proof.
  intros key w1 Hdays Hmiss Hrange. subst w1.
  rewrite calculateEngagementMetrics_run.
  change (optional_number (Some days)) with (JsNumber days). fold key.
  destruct (getFromCache_trace (T:=EngagementMetrics) key w)
    as (Hreads & Herrors & Hcalls & Hwrites).
  destruct (redis_get C key w) as [answer w1]. cbn [fst snd] in *.
  rewrite Hmiss. unfold computeMetrics. rewrite run_bind.
  assert (Hthrow : run C (timeRangeFilter (Some days)) w1
                   = (Threw (Error "Invalid time value"), w1, [])).
  { unfold timeRangeFilter. simpl truthy.
    destruct (Z.eqb_spec days 0) as [?|_]; [done|]. cbn [negb].
    change (run C (NewDate Ret ≫= λ now,
              toISOString (UTC (LocalTime now - default 0 (Some days) * msPerDay))
              ≫= λ iso, Ret [("startDate", JsString iso)]) w1)
      with (run C (toISOString (UTC (LocalTime (clock C w1) - days * msPerDay))
                   ≫= λ iso, Ret [("startDate", JsString iso)]) w1).
    unfold toISOString.
    destruct (Z.leb_spec (Z.abs (UTC (LocalTime (clock C w1) - days * msPerDay)))
                8640000000000000); [lia | done]. }
  rewrite Hthrow.
  destruct (handleError_trace "Failed to calculate engagement metrics"
              (Error "Invalid time value")
              [("userId", VString userId)] w1) as (Hr4 & Hm4 & Hc4 & Hw4 & _).
  destruct (run C (handleError "Failed to calculate engagement metrics" _ _) w1)
    as [[o4 w5] t4]. cbn [snd] in *.
  rewrite !errorMessages_app, !cacheReads_app, !cacheWrites_app, !axiosCalls_app.
  rewrite Herrors, Hm4, Hreads, Hr4, Hwrites, Hw4, Hcalls, Hc4. done.
Qed.

(** X14. Under a store that keeps what it accepts and a JSON that reads back
    what it writes, a call of [getUserActivity] that missed the cache, got
    the records from the remote source and had its write accepted is
    followed by a hit: the same call made next returns the same records with
    no request to the remote source and no write. *)
Theorem getUserActivity_then_hit userId filter w activities :
  let key := generateCacheKey "activity" userId filter in
  let ttl := activityTtlSec (cacheConfig this) in
  let w1 := (redis_get C key w).2 in
  let w2 := (axios_get C (activityEndpoint this userId)
               (activityRequest this filter) w1).2 in
  StoreKeeps C →
  JSON_stringify activities ≠ "" →
  JSON_parse (JSON_stringify activities) = inr (Some activities) →
  storedValue (T:=list UserActivity) (redis_get C key w).1 = None →
  (axios_get C (activityEndpoint this userId)
     (activityRequest this filter) w1).1 = inr activities →
  (redis_setex C key ttl (JSON_stringify activities) w2).1 = inr () →
  let '(o, w', t) := run C (getUserActivity this userId filter) w in
  let '(o2, w'', t2) := run C (getUserActivity this userId filter) w' in
  o = Returned activities ∧ o2 = Returned activities
  ∧ axiosCalls t2 = [] ∧ cacheWrites t2 = [] ∧ cacheReads t2 = [key].
Proof.
  intros key ttl w1 w2 Hkeeps Hnonempty Hjson Hmiss Hremote Haccepted.
  subst w1 w2.
  assert (Hsecond : ∀ w',
    (redis_get C key w').1 = inr (Some (JSON_stringify activities)) →
    let '(o2, w'', t2) := run C (getUserActivity this userId filter) w' in
    o2 = Returned activities
    ∧ axiosCalls t2 = [] ∧ cacheWrites t2 = [] ∧ cacheReads t2 = [key]).
  { intros w' Hread. rewrite getUserActivity_run. fold key.
    destruct (getFromCache_trace (T:=list UserActivity) key w')
      as (Hreads & Herrors & Hcalls & Hwrites).
    destruct (redis_get C key w') as [answer w'']. cbn [fst snd] in *.
    subst answer. unfold storedValue, readAnswer.
    destruct (String.eqb_spec (JSON_stringify activities) "") as [?|_]; [done|].
    rewrite Hjson.
    rewrite axiosCalls_app, cacheWrites_app, cacheReads_app.
    by rewrite Hreads, Hcalls, Hwrites. }
  rewrite getUserActivity_run. fold key.
  destruct (redis_get C key w) as [answer w1]. cbn [fst snd] in *.
  rewrite Hmiss.
  destruct (axios_get C _ _ w1) as [response w2]. cbn [fst snd] in *.
  subst response. fold ttl. rewrite setInCache_run.
  destruct (redis_setex C key ttl (JSON_stringify activities) w2)
    as [accepted w3] eqn:Hset.
  cbn [fst] in Haccepted. subst accepted.
  specialize (Hsecond w3 (Hkeeps _ _ _ _ _ Hset)).
  destruct (run C (getUserActivity this userId filter) w3) as [[o2 w''] t2].
  by split.
Qed.
End MetricsFacts.

(** ** Cache invalidation *)

Section InvalidationFacts.
Context {W : Type} (C : Collaborators W) (K : Keyspace W).

Lemma invalidate_catch_spec userId error w trace :
  ∃ context,
    invalidate_catch C userId error w trace
    = (Threw error, w,
       trace ++ [Service (EvLog LError "Failed to invalidate user cache"
                            ([("userId", VString userId)] ++ context))]).
Proof.
  unfold invalidate_catch.
  destruct (handleError_run C "Failed to invalidate user cache" error
              [("userId", VString userId)] w) as [context ->].
  by exists context.
Qed.

(** X15. [invalidateUserCache] asks once for the keys that match the pattern
    of the user and deletes exactly the keys it was given, in one command;
    given no key it deletes nothing and returns. A rejection of either
    command is not absorbed: it is logged with the user id and thrown to the
    caller unchanged. *)
Theorem invalidateUserCache_deletes_listed_keys userId w :
  let pattern := invalidationPattern userId in
  let answer := (redis_keys K pattern w).1 in
  let w1 := (redis_keys K pattern w).2 in
  let '(o, w', t) := invalidateUserCache C K userId w in
  (∀ keys, answer = inr keys →
     commandsOf t = KEYS pattern :: (if decide (keys = []) then [] else [DEL keys])
     ∧ (keys = [] → o = Returned () ∧ w' = w1)
     ∧ (keys ≠ [] →
        w' = (redis_del K keys w1).2
        ∧ match (redis_del K keys w1).1 with
          | inr _ => o = Returned ()
          | inl error =>
              o = Threw error
              ∧ Exists (λ ev, ∃ ev', ev = Service ev' ∧ errorLoggedFor userId ev') t
          end))
  ∧ (∀ error, answer = inl error →
       o = Threw error ∧ w' = w1 ∧ commandsOf t = [KEYS pattern]
       ∧ Exists (λ ev, ∃ ev', ev = Service ev' ∧ errorLoggedFor userId ev') t).
Proof.
  intros pattern answer w1. subst answer w1.
  unfold invalidateUserCache. fold pattern.
  destruct (redis_keys K pattern w) as [[error|keys] w1]; cbn [fst snd].
  - destruct (invalidate_catch_spec userId error w1 [Command (KEYS pattern)])
      as [context ->].
    split; [done|]. intros e [= <-].
    split; [done|]. split; [done|]. split; [done|].
    apply Exists_cons_tl, Exists_cons_hd. eexists. split; [done|].
    simpl. apply elem_of_cons. by left.
  - destruct keys as [|key keys].
    + simpl. split; [|done]. intros ks [= <-].
      split; [done|]. split; [done|]. by intros [].
    + change (0 <? length (key :: keys))%nat with true. cbv iota.
      destruct (redis_del K (key :: keys) w1) as [[error|n] w2] eqn:Hdel.
      * destruct (invalidate_catch_spec userId error w2
                    [Command (KEYS pattern); Command (DEL (key :: keys))])
          as [context ->].
        split; [|done]. intros ks [= <-]. rewrite Hdel. cbn [fst snd].
        split; [done|]. split; [done|]. intros _. split; [done|].
        split; [done|].
        do 2 apply Exists_cons_tl. apply Exists_cons_hd.
        eexists. split; [done|]. simpl. apply elem_of_cons. by left.
      * split; [|done]. intros ks [= <-]. rewrite Hdel. cbn [fst snd].
        split; [done|]. split; [done|]. intros _. by split.
Qed.
End InvalidationFacts.

Section InvalidationKeys.
Context `{R : Runtime}.


End InvalidationKeys.


(** ** Bulk processing: accounting *)

Section BulkFacts.
Context `{R : Runtime}.
Context `{JA : Json (list UserActivity)} `{JM : Json EngagementMetrics}.
Context {W : Type} (C : Collaborators W).
Variable this : UserActivityService.

Lemma forEach_result_trace userIdsCount results metricsMap w :
  run C (forEach_result userIdsCount results metricsMap) w
  = (Returned (collected results metricsMap), w,
     map (bulkFailure userIdsCount) (rejections results)).
Proof.
  revert metricsMap. induction results as [|[[userId metrics]|e] rest IH];
    intros metricsMap; simpl.
  - done.
  - apply IH.
  - change (logger LError "Failed to process user metrics"
              [("error", VError e); ("userIdsCount", VNumber userIdsCount)]
            ≫= λ _, forEach_result userIdsCount rest metricsMap)
      with (Log LError "Failed to process user metrics"
              [("error", VError e); ("userIdsCount", VNumber userIdsCount)]
              (forEach_result userIdsCount rest metricsMap)).
    cbn [run]. by rewrite IH.
Qed.

Lemma bulkCollect_trace uniqueUserIds results w :
  let requested := Z.of_nat (length uniqueUserIds) in
  let metricsMap := collected results ∅ in
  run C (bulkCollect uniqueUserIds results) w
  = (Returned metricsMap, w,
     map (bulkFailure requested) (rejections results)
     ++ [bulkSummary requested (Z.of_nat (size metricsMap))]).
Proof.
  intros requested metricsMap. unfold bulkCollect. rewrite run_bind.
  fold requested. by rewrite forEach_result_trace.
Qed.

Lemma collected_size userIds results :
  NoDup userIds →
  Forall2 (λ userId result,
             ∀ u x, result = Returned (u, x) → u = userId) userIds results →
  ∀ metricsMap : gmap string EngagementMetrics,
    (∀ u, u ∈ userIds → metricsMap !! u = None) →
    (size (collected results metricsMap) + length (rejections results)
     = size metricsMap + length userIds)%nat.
Proof.
  intros Hnd Hall. revert Hnd.
  induction Hall as [|userId result userIds results Hhead Hall IH];
    intros Hnd metricsMap Hfresh.
  - simpl. lia.
  - apply NoDup_cons in Hnd as [Hnotin Hnd].
    destruct result as [[u0 x0]|e]; simpl.
    + assert (u0 = userId) as -> by by eapply Hhead.
      rewrite (IH Hnd).
      * rewrite map_size_insert_None by (apply Hfresh; by left). lia.
      * intros u' Hu'. rewrite lookup_insert_ne; [apply Hfresh; by right|].
        intros ->. done.
    + assert (Hrest : ∀ u, u ∈ userIds → metricsMap !! u = None).
      { intros u' Hu'. apply Hfresh. by right. }
      specialize (IH Hnd metricsMap Hrest).
      change (rejections (Threw e :: results)) with (e :: rejections results).
      cbn [length]. lia.
Qed.

Lemma Array_from_Set_length (userIds : list string) :
  (length (Array_from_Set userIds) ≤ length userIds)%nat.
Proof.
  destruct (Array_from_Set_spec userIds) as [Hnd Hmem].
  apply submseteq_length, NoDup_submseteq; [done|].
  intros userId. apply Hmem.
Qed.

(** X17. Every unique id is accounted for once: under whatever schedule the
    calls settle, the entries of the returned map and the rejected results
    add up to the number of unique ids, which is at most the number of ids
    given. After the records of the calls the log holds one error record per
    rejected result, with its reason, and ends with the summary of the ids
    requested and processed. *)
Theorem bulk_accounting userIds timeRangeInDays schedule w o w' t :
  let uniqueUserIds := Array_from_Set userIds in
  let requested := Z.of_nat (length uniqueUserIds) in
  let pool :=
    run_pool C schedule (bulkTasks this uniqueUserIds timeRangeInDays) w in
  bulkProcessUserMetrics C this userIds timeRangeInDays schedule w
  = Some (o, w', t) →
  ∃ metricsMap results,
    o = Returned metricsMap
    ∧ w' = pool.1.2
    ∧ allSettled pool.1.1 = Some results
    ∧ (size metricsMap + length (rejections results)
       = length uniqueUserIds)%nat
    ∧ (length uniqueUserIds ≤ length userIds)%nat
    ∧ t = pool.2 ++ map (bulkFailure requested) (rejections results)
          ++ [bulkSummary requested (Z.of_nat (size metricsMap))].
Proof.
  intros uniqueUserIds requested pool. subst pool.
  unfold bulkProcessUserMetrics. fold uniqueUserIds.
  pose proof (run_pool_tracked C schedule uniqueUserIds
                (bulkTasks this uniqueUserIds timeRangeInDays) w []
                (bulkTasks_tracked this uniqueUserIds timeRangeInDays))
    as Htracked.
  destruct (run_pool C schedule _ w) as [[tasks w1] t1]. cbn [fst snd] in *.
  destruct (allSettled tasks) as [results|] eqn:Hres; simpl; [|done].
  rewrite bulkCollect_trace. intros [= <- <- <-].
  apply mapM_Some_1 in Hres as Hsettled.
  assert (Halign : Forall2 (λ userId result,
            ∀ u x, result = Returned (u, x) → u = userId)
            uniqueUserIds results).
  { eapply Forall2_trans; [|exact Htracked | exact Hsettled].
    intros userId p result Hp Hr u x ->.
    by apply (settled_tracked _ _ _ _ Hp Hr). }
  destruct (Array_from_Set_spec userIds) as [Hnd _].
  exists (collected results ∅), results.
  split_and!; [done..| | apply Array_from_Set_length | done].
  rewrite (collected_size uniqueUserIds results Hnd Halign ∅)
    by (intros; apply lookup_empty).
  by rewrite map_size_empty.
Qed.

(** *** One call in flight *)

Lemma run_step {A} (p : Prog A) w :
  run C p w =
    let '(p1, w1, t1) := step C p w in
    let '(o, w', t) := run C p1 w1 in (o, w', t1 ++ t).
Proof.
  destruct p as [a|e|l m c k|k|key k|key s v k|url cfg k]; cbn [run step].
  - done.
  - done.
  - by destruct (run C k w) as [[o w'] t].
  - by destruct (run C (k (clock C w)) w) as [[o w'] t].
  - destruct (redis_get C key w) as [r w1].
    by destruct (run C (k r) w1) as [[o w'] t].
  - destruct (redis_setex C key s v w) as [r w1].
    by destruct (run C (k r) w1) as [[o w'] t].
  - destruct (axios_get C url cfg w) as [r w1].
    by destruct (run C (k r) w1) as [[o w'] t].
Qed.

Lemma run_settled {A} (p : Prog A) o w :
  settled p = Some o → run C p w = (o, w, []).
Proof. destruct p; simpl; intros; by simplify_eq. Qed.

Lemma run_pool_one {A} schedule : ∀ (p : Prog A) w,
  ∃ p',
    (run_pool C schedule [p] w).1.1 = [p']
    ∧ ∀ o, settled p' = Some o →
        run C p w = (o, (run_pool C schedule [p] w).1.2,
                     (run_pool C schedule [p] w).2).
Proof.
  induction schedule as [|i rest IH]; intros p w.
  - exists p. split; [done|]. intros o Ho. by apply run_settled.
  - cbn [run_pool]. unfold step_at. destruct i as [|i].
    + change ([p] !! 0%nat) with (Some p). rewrite (run_step p w).
      destruct (step C p w) as [[p1 w1] t1].
      change (<[0%nat := p1]> [p]) with [p1].
      destruct (IH p1 w1) as (p' & Hp' & Hrun).
      destruct (run_pool C rest [p1] w1) as [[tasks2 w2] t2].
      cbn [fst snd] in *. exists p'. split; [done|].
      intros o Ho. by rewrite (Hrun o Ho).
    + change ([p] !! S i) with (([] : list (Prog A)) !! i).
      rewrite lookup_nil. cbv iota.
      destruct (IH p w) as (p' & Hp' & Hrun).
      destruct (run_pool C rest [p] w) as [[tasks2 w2] t2].
      cbn [fst snd] in *. exists p'. split; [done|].
      intros o Ho. by rewrite (Hrun o Ho).
Qed.

Lemma Array_from_Set_one userIds userId :
  userIds ≠ [] → (∀ u, u ∈ userIds → u = userId) →
  Array_from_Set userIds = [userId].
Proof.
  intros Hne Hall.
  destruct (Array_from_Set_spec userIds) as [Hnd Hmem].
  destruct (Array_from_Set userIds) as [|u [|u' rest]].
  - destruct userIds as [|u0 ?]; [done|].
    assert (Hin : u0 ∈ ([] : list string)) by (apply Hmem; by left).
    by apply elem_of_nil in Hin.
  - f_equal. apply Hall, Hmem. by left.
  - assert (u = userId) as -> by (apply Hall, Hmem; by left).
    assert (u' = userId) as -> by (apply Hall, Hmem; right; by left).
    apply NoDup_cons in Hnd as [Hnotin _]. exfalso. apply Hnotin. by left.
Qed.

(** X18. Ids that name one user, however often, start one call: under
    whatever schedule it settles, [bulkProcessUserMetrics] leaves the world
    as one call of [calculateEngagementMetrics] for that user does, returns
    the map of that user to the metrics of that call, or the empty map when
    that call throws, and adds to the records of that call only its own two
    kinds of log record. *)
Theorem bulk_of_one_user userIds userId timeRangeInDays schedule w o w' t :
  userIds ≠ [] → (∀ u, u ∈ userIds → u = userId) →
  bulkProcessUserMetrics C this userIds timeRangeInDays schedule w
  = Some (o, w', t) →
  let '(o1, w1, t1) :=
    run C (calculateEngagementMetrics this userId timeRangeInDays) w in
  w' = w1
  ∧ o = Returned match o1 with
                 | Returned metrics => <[userId := metrics]> ∅
                 | Threw _ => ∅
                 end
  ∧ t = t1 ++ match o1 with
              | Returned _ => [bulkSummary 1 1]
              | Threw reason => [bulkFailure 1 reason; bulkSummary 1 0]
              end.
Proof.
  intros Hne Hall. unfold bulkProcessUserMetrics.
  rewrite (Array_from_Set_one userIds userId Hne Hall).
  cbn [bulkTasks map].
  destruct (run_pool_one schedule
              (calculateEngagementMetrics this userId timeRangeInDays
               ≫= λ metrics, Ret (userId, metrics)) w) as (p' & Hp' & Hrun).
  destruct (run_pool C schedule _ w) as [[tasks w1] t1]. cbn [fst snd] in *.
  subst tasks. unfold allSettled. cbn [mapM].
  destruct (settled p') as [result|] eqn:Hsettled; [|done].
  specialize (Hrun result eq_refl). rewrite run_bind in Hrun.
  cbn [mbind option_bind mret option_ret].
  rewrite bulkCollect_trace.
  destruct (run C (calculateEngagementMetrics this userId timeRangeInDays) w)
    as [[[metrics|e] w0] t0].
  - cbn [run] in Hrun. injection Hrun as <- <- <-. rewrite app_nil_r.
    change (collected [Returned (userId, metrics)] ∅)
      with (<[userId := metrics]> (∅ : gmap string EngagementMetrics)).
    rewrite map_size_insert_None, map_size_empty by apply lookup_empty.
    by intros [= <- <- <-].
  - injection Hrun as <- <- <-. intros [= <- <- <-]. done.
Qed.
End BulkFacts.

(** ** The retry strategy of the factory *)

Lemma Qpower_2_nonneg (times : Z) : (0 <= Qpower 2 times)%Q.
Proof. by apply Qpower_pos. Qed.

Lemma Qpower_2_Z (times : Z) :
  0 ≤ times → (Qpower 2 times == inject_Z (2 ^ times))%Q.
Proof. intros Ht. by rewrite (Zpower_Qpower 2 times Ht). Qed.

(** X19. The delay before a reconnection is never negative and never above
    30 seconds. Up to the ninth attempt it is the exponential delay [50 *
    2^times] plus a jitter of at most 100 ms; from the tenth attempt on it
    is 30 seconds. *)
Theorem retryStrategy_bounds (random : Q) (times : Z) :
  (0 <= random)%Q → (random < 1)%Q →
  0 ≤ retryStrategy random times ≤ 30000
  ∧ (0 ≤ times ≤ 9 →
     50 * 2 ^ times ≤ retryStrategy random times ≤ 50 * 2 ^ times + 100)
  ∧ (10 ≤ times → retryStrategy random times = 30000).
Proof.
  intros H0 H1. unfold retryStrategy. cbv zeta.
  set (x := (random * 100 + Qpower 2 times * 50)%Q).
  assert (Hx0 : (0 <= x)%Q).
  { subst x. change 0%Q with (0 + 0)%Q. apply Qplus_le_compat.
    - by apply Qmult_le_0_compat.
    - apply Qmult_le_0_compat; [apply Qpower_2_nonneg | done]. }
  assert (Hfloor0 : 0 ≤ Qfloor x).
  { change 0 with (Qfloor 0). by apply Qfloor_resp_le. }
  assert (Hwindow : 0 ≤ times →
    (inject_Z (50 * 2 ^ times) <= x)%Q
    ∧ (x < inject_Z (50 * 2 ^ times + 100))%Q).
  { intros Ht. subst x. rewrite (Qpower_2_Z times Ht).
    rewrite inject_Z_plus, inject_Z_mult.
    assert (Heq : (inject_Z 50 * inject_Z (2 ^ times)
                   == 0 + inject_Z (2 ^ times) * 50)%Q) by (simpl; ring).
    split.
    - rewrite Heq. apply Qplus_le_compat; [|apply Qle_refl].
      by apply Qmult_le_0_compat.
    - rewrite (Qplus_comm (inject_Z 50 * _)), Heq, Qplus_0_l.
      apply Qplus_lt_le_compat; [|apply Qle_refl].
      change (inject_Z 100) with (1 * 100)%Q.
      by apply Qmult_lt_compat_r. }
  assert (Hfloor : 0 ≤ times →
    50 * 2 ^ times ≤ Qfloor x < 50 * 2 ^ times + 100).
  { intros Ht. destruct (Hwindow Ht) as [Hlo Hhi]. split.
    - rewrite <- (Qfloor_Z (50 * 2 ^ times)). by apply Qfloor_resp_le.
    - rewrite Zlt_Qlt. eapply Qle_lt_trans; [apply Qfloor_le | exact Hhi]. }
  split; [lia | split].
  - intros Ht. specialize (Hfloor ltac:(lia)).
    assert (2 ^ times ≤ 2 ^ 9) by (apply Z.pow_le_mono_r; lia).
    change (2 ^ 9) with 512 in *. lia.
  - intros Ht. specialize (Hfloor ltac:(lia)).
    assert (2 ^ 10 ≤ 2 ^ times) by (apply Z.pow_le_mono_r; lia).
    change (2 ^ 10) with 1024 in *. lia.
Qed.

(** * Examples on the sample host *)

Section Examples.
Import Sample.

(** The sample host sorts strings by their bytes, consistently. *)
#[local] Instance host_collation : ConsistentCollation host.
Proof.
  split.
  - intros a b. apply String.compare_antisym.
  - intros a b c Hab Hbc. apply String_as_OT.cmp_lt.
    apply String_as_OT.cmp_lt in Hab, Hbc.
    by eapply String_as_OT.lt_trans.
Qed.

(** The scenario of the test suite: three records of [user123], two in
    hour 10 and one in hour 11, one of them 120 seconds long, aggregated
    a day later. *)
Example processActivities_mockActivities :
  let m := processActivities 1683021600000 mockActivities in
  totalActivities m = 3
  ∧ activityByType m
    = {[ "PAGE_VIEW" := CountNumber 1; "CLICK" := CountNumber 1;
         "VIDEO_PLAY" := CountNumber 1 ]}
  ∧ averageDurationSec m = 40
  ∧ mostActiveHour m = 10
  ∧ mostActiveDay m = 1
  ∧ daysSinceLastActivity m = 0
  ∧ engagementScore m = 47.
Proof. vm_compute. repeat split. Qed.

Example getUserActivity_miss_then_hit :
  let '(o1, w1, t1) :=
    run collaborators (getUserActivity service "user123" None) (world [] true) in
  let '(o2, w2, t2) :=
    run collaborators (getUserActivity service "user123" None) w1 in
  o1 = Returned mockActivities
  ∧ axiosCalls t1
    = [("https://api.test.com/users/user123/activity",
        {| params := None; timeout := 1000 |})]
  ∧ cacheWrites t1
    = [("user-activity:user123:activity", 60, "[activity1,activity2,activity3]")]
  ∧ o2 = Returned mockActivities
  ∧ axiosCalls t2 = [].
Proof. vm_compute. repeat split. Qed.

(** C6: the key of the code is not the key layout of the specification,
    with a tag or without one. *)
Lemma generateCacheKey_not_specifiedKey :
  generateCacheKey "activity" "user123" None = "user-activity:user123:activity"
  ∧ (generateCacheKey "activity" "user123" None
     ≠ specifiedKey "activity" "user123" None)
  ∧ generateCacheKey "activity" "user123" (Some [("limit", JsNumber 10)])
    = "user-activity:user123:activity:bGltaXQ9MTA="
  ∧ (generateCacheKey "activity" "user123" (Some [("limit", JsNumber 10)])
     ≠ specifiedKey "activity" "user123" (Some "bGltaXQ9MTA=")).
Proof. vm_compute. repeat split; discriminate. Qed.


(** *** The theorems at work *)




(** C4 while the store is down: every read is rejected, and both calls
    end as they would without a cache. *)
Lemma cache_failures_absorbed_witness :
  let w := world [] false in
  readFailed (T:=list UserActivity)
    (redis_get collaborators (generateCacheKey "activity" "user123" None) w).1
  ∧ (run collaborators (getUserActivity service "user123" None) w).1.1
    = Returned mockActivities
  ∧ readFailed (T:=EngagementMetrics)
      (redis_get collaborators
         (generateCacheKey "metrics" "user123"
            (Some [("timeRangeInDays", optional_number None)])) w).1
  ∧ (run collaborators (calculateEngagementMetrics service "user123" None) w).1.1
    = (run collaborators (computeMetrics service "user123" None) w).1.1.
Proof.
  intros w.
  destruct (cache_failures_absorbed collaborators service)
    as (_ & _ & Hactivity & Hmetrics).
  assert (H1 : readFailed (T:=list UserActivity)
            (redis_get collaborators
               (generateCacheKey "activity" "user123" None) w).1).
  { left. by eexists. }
  assert (H2 : readFailed (T:=EngagementMetrics)
            (redis_get collaborators
               (generateCacheKey "metrics" "user123"
                  (Some [("timeRangeInDays", optional_number None)])) w).1).
  { left. by eexists. }
  split; [exact H1|]. split.
  - rewrite (Hactivity "user123" None w (or_introl H1)). reflexivity.
  - split; [exact H2|].
    exact (Hmetrics "user123" None w (or_introl H2)).
Defined.

(** C10 on an empty store. *)
Lemma zero_time_range_witness :
  let w := world [] true in
  let key :=
    generateCacheKey "metrics" "user123" (Some [("timeRangeInDays", JsNumber 0)]) in
  (run collaborators (getFromCache (T:=EngagementMetrics) key) w).1.1
  = Returned None
  ∧ (run collaborators (calculateEngagementMetrics service "user123" (Some 0)) w).1.1
    = (run collaborators (computeMetrics service "user123" None)
         (redis_get collaborators key w).2).1.1
  ∧ ∀ call,
      call ∈ axiosCalls
               (run collaborators
                  (calculateEngagementMetrics service "user123" (Some 0)) w).2 →
      call = (activityEndpoint service "user123",
              activityRequest service (Some [])).
Proof.
  intros w key.
  assert (Hmiss : (run collaborators
                     (getFromCache (T:=EngagementMetrics) key) w).1.1
                  = Returned None)
    by reflexivity.
  split; [exact Hmiss|].
  exact (proj2 (proj2 (zero_time_range_is_unbounded collaborators service
                         "user123" w)) Hmiss).
Defined.

(** C3 on four ids, one of them repeated and one unknown to the remote
    source, with the three calls advancing in turn. *)
Lemma bulk_partial_failure_witness :
  let userIds := ["user123"; "user2"; "user123"; "user3"] in
  let schedule := concat (replicate 12 [0; 1; 2]%nat) in
  ∃ o w' t,
    bulkProcessUserMetrics collaborators service userIds None schedule
      (world [] true) = Some (o, w', t)
    ∧ ∃ metricsMap results,
        o = Returned metricsMap
        ∧ allSettled
            (run_pool collaborators schedule
               (bulkTasks service (Array_from_Set userIds) None)
               (world [] true)).1.1
          = Some results
        ∧ NoDup (Array_from_Set userIds)
        ∧ (∀ userId, userId ∈ Array_from_Set userIds ↔ userId ∈ userIds)
        ∧ Forall2 (accountedFor metricsMap t) (Array_from_Set userIds) results
        ∧ (∀ userId metrics,
             metricsMap !! userId = Some metrics
             ↔ Returned (userId, metrics) ∈ results).
Proof.
  intros userIds schedule.
  destruct (bulkProcessUserMetrics collaborators service userIds None schedule
              (world [] true)) as [[[o w'] t]|] eqn:Hbulk.
  - exists o, w', t. split; [reflexivity|].
    exact (proj2 (bulk_partial_failure collaborators service userIds None
                    (world [] true)) schedule o w' t Hbulk).
  - vm_compute in Hbulk. discriminate Hbulk.
Defined.

(** The bulk call of the test suite: of three subjects the second
    fails; the map holds the other two, and the failure is logged. *)
Example bulkProcessUserMetrics_partial :
  match bulkProcessUserMetrics collaborators service
          ["user123"; "user2"; "user123"; "user3"] None
          (concat (replicate 12 [0; 1; 2]%nat)) (world [] true) with
  | Some (Returned metricsMap, _, t) =>
      engagementScore <$> metricsMap = {[ "user123" := 47; "user3" := 0 ]}
      ∧ length (filter (errorLoggedFor "user2") t) = 2%nat
  | _ => False
  end.
Proof. vm_compute. split; reflexivity. Qed.
End Examples.

(** * Further examples on the sample host *)

Section FurtherExamples.
Import Sample SampleKeyspace.


(** X2 on the records of the test suite. *)
Lemma daysSinceLastActivity_sign_witness :
  mockActivities ≠ []
  ∧ daysSinceLastActivity (processActivities 1683021600000 mockActivities)
    = (1683021600000 - latestTime mockActivities) / msPerDay.
Proof.
  assert (Hne : mockActivities ≠ []) by discriminate.
  split; [exact Hne|].
  exact (proj1 (daysSinceLastActivity_sign 1683021600000 mockActivities Hne)).
Defined.

(** X3 on the records of the test suite, whose one duration is 120
    seconds. *)
Lemma averageDurationSec_bounds_witness :
  0 ≤ averageDurationSec (processActivities 1683021600000 mockActivities) ≤ 120.
Proof.
  apply (averageDurationSec_bounds 1683021600000 mockActivities 120); [lia|].
  intros a d Ha Hd. unfold mockActivities in Ha.
  rewrite !elem_of_cons, elem_of_nil in Ha.
  destruct Ha as [->|[->|[->|[]]]]; simpl in Hd; simplify_eq.
  split; unfold Qle; simpl; lia.
Defined.

(** X4 on the records of the test suite, whose timestamps all parse. *)
Lemma mostActiveHour_realised_witness :
  ∃ a, a ∈ mockActivities
       ∧ hourOf a
         = Some (mostActiveHour (processActivities 1683021600000 mockActivities)).
Proof.
  apply (proj1 (mostActiveHour_realised 1683021600000 mockActivities)).
  exists (activity "activity1" "PAGE_VIEW" "2023-05-01T10:00:00Z" None).
  split; [apply elem_of_cons; by left|]. by eexists.
Defined.

(** X5 on the records of the test suite. *)
Lemma kind_counts_add_up_witness :
  let metrics := processActivities 1683021600000 mockActivities in
  Z.of_nat (countedRecords (activityByType metrics)) = totalActivities metrics.
Proof.
  apply (kind_counts_add_up 1683021600000 mockActivities). compute_done.
Defined.

(** X6 on the cached metrics of the test suite and the same metrics
    with a longer average duration and a more recent last activity. *)
Lemma calculateEngagementScore_monotone_witness :
  let better := {|
    totalActivities := 3;
    activityByType := activityByType cachedMetrics;
    averageDurationSec := 80;
    mostActiveHour := 10;
    mostActiveDay := 1;
    daysSinceLastActivity := 2;
    engagementScore := 0;
  |} in
  calculateEngagementScore cachedMetrics ≤ calculateEngagementScore better.
Proof.
  intros better.
  apply (calculateEngagementScore_monotone cachedMetrics better);
    [reflexivity | simpl; lia | simpl; lia | apply le_n].
Defined.

(** X7 on two metrics that differ in an average duration beyond the
    cap. *)
Lemma calculateEngagementScore_caps_witness :
  let long duration := {|
    totalActivities := 3;
    activityByType := activityByType cachedMetrics;
    averageDurationSec := duration;
    mostActiveHour := 10;
    mostActiveDay := 1;
    daysSinceLastActivity := 5;
    engagementScore := 0;
  |} in
  calculateEngagementScore (long 300) = calculateEngagementScore (long 900).
Proof.
  intros long.
  apply (calculateEngagementScore_caps (long 300) (long 900)); reflexivity.
Defined.

(** X9 on the ranges of 7 and of 30 days. *)
Lemma metrics_key_separates_time_ranges_witness :
  generateCacheKey "metrics" "user123"
    (Some [("timeRangeInDays", optional_number (Some 7))])
  ≠ generateCacheKey "metrics" "user123"
      (Some [("timeRangeInDays", optional_number (Some 30))]).
Proof.
  apply (metrics_key_separates_time_ranges "user123" (Some 7) (Some 30)).
  discriminate.
Defined.

(** X10 on the sample host, which orders strings by their bytes. *)
Lemma generateCacheKey_merges_fields_witness :
  generateCacheKey "activity" "user123"
    (Some [("path", JsString "/products&type=CLICK")])
  = generateCacheKey "activity" "user123"
      (Some [("path", JsString "/products"); ("type", JsString "CLICK")]).
Proof.
  apply (generateCacheKey_merges_fields "activity" "user123" "/products" "CLICK").
  reflexivity.
Defined.

(** X12 on a user unknown to the remote source, with an empty store. *)
Lemma remote_failure_logged_by_both_layers_witness :
  errorMessages
    (run collaborators (calculateEngagementMetrics service "user2" None)
       (world [] true)).2
  = ["Failed to fetch user activity"; "Failed to calculate engagement metrics"].
Proof.
  pose proof (remote_failure_logged_by_both_layers collaborators service
                "user2" None (world [] true) []
                (AxiosError "Request failed with status code 404" (Some 404)
                   (Some "Not Found")
                   (Some "https://api.test.com/users/user2/activity"))
                eq_refl eq_refl eq_refl eq_refl) as H.
  destruct (run collaborators (calculateEngagementMetrics service "user2" None)
              (world [] true)) as [[o w'] t].
  exact (proj1 (proj2 H)).
Defined.

(** X13 on a range of 10^12 days. *)
Lemma time_range_beyond_dates_throws_witness :
  (run collaborators
     (calculateEngagementMetrics service "user123" (Some 1000000000000))
     (world [] true)).1.1
  = Threw (Error "Invalid time value").
Proof.
  assert (Hdays : 1000000000000 ≠ 0) by discriminate.
  pose proof (time_range_beyond_dates_throws collaborators service "user123"
                1000000000000 (world [] true) Hdays eq_refl eq_refl) as H.
  destruct (run collaborators
              (calculateEngagementMetrics service "user123" (Some 1000000000000))
              (world [] true)) as [[o w'] t].
  exact (proj1 H).
Defined.

(** The sample store keeps what it accepts. *)
Lemma sample_store_keeps : StoreKeeps collaborators.
Proof.
  intros key seconds value w w'. simpl.
  destruct (redis_up w); intros [= <-]; simpl.
  by rewrite lookup_insert_eq.
Qed.

(** X14 on the first two calls of the test suite for [user123]. *)
Lemma getUserActivity_then_hit_witness :
  let w1 :=
    (run collaborators (getUserActivity service "user123" None)
       (world [] true)).1.2 in
  (run collaborators (getUserActivity service "user123" None) w1).1.1
  = Returned mockActivities
  ∧ axiosCalls (run collaborators (getUserActivity service "user123" None) w1).2
    = [].
Proof.
  intros w1. subst w1.
  assert (Hnonempty : JSON_stringify mockActivities ≠ "") by discriminate.
  pose proof (getUserActivity_then_hit collaborators service "user123" None
                (world [] true) mockActivities sample_store_keeps Hnonempty
                eq_refl eq_refl eq_refl eq_refl) as H.
  destruct (run collaborators (getUserActivity service "user123" None)
              (world [] true)) as [[o w'] t].
  cbn [fst snd].
  destruct (run collaborators (getUserActivity service "user123" None) w')
    as [[o2 w''] t2].
  cbn [fst snd]. destruct H as (_ & H2 & H3 & _). by split.
Defined.

(** X15 on a store that holds an entry of [user123] and one of
    [user3]. *)
Lemma invalidateUserCache_deletes_listed_keys_witness :
  let w := world [("user-activity:user123:activity", "[]");
                  ("user-activity:user3:activity", "[]")] true in
  commandsOf (invalidateUserCache collaborators keyspace "user123" w).2
  = [KEYS "user-activity:user123:*"; DEL ["user-activity:user123:activity"]].
Proof.
  intros w.
  assert (Hkeys : (redis_keys keyspace (invalidationPattern "user123") w).1
                  = inr ["user-activity:user123:activity"])
    by (vm_compute; reflexivity).
  pose proof (invalidateUserCache_deletes_listed_keys collaborators keyspace
                "user123" w) as H.
  destruct (invalidateUserCache collaborators keyspace "user123" w)
    as [[o w'] t].
  exact (proj1 (proj1 H _ Hkeys)).
Defined.

(** X17 on three ids, one of them repeated and one unknown to the
    remote source. *)
Lemma bulk_accounting_witness :
  let userIds := ["user2"; "user3"; "user2"] in
  let schedule := concat (replicate 12 [1; 0]%nat) in
  ∃ o w' t metricsMap (results : list (Outcome (string * EngagementMetrics))),
    bulkProcessUserMetrics collaborators service userIds None schedule
      (world [] true) = Some (o, w', t)
    ∧ o = Returned metricsMap
    ∧ (size metricsMap + length (rejections results)
       = length (Array_from_Set userIds))%nat.
Proof.
  intros userIds schedule.
  destruct (bulkProcessUserMetrics collaborators service userIds None schedule
              (world [] true)) as [[[o w'] t]|] eqn:Hbulk.
  - destruct (bulk_accounting collaborators service userIds None schedule
                (world [] true) o w' t Hbulk)
      as (metricsMap & results & Ho & _ & _ & Hsize & _).
    exists o, w', t, metricsMap, results. by split.
  - vm_compute in Hbulk. discriminate Hbulk.
Defined.

(** X18 on the id [user123] given twice. *)
Lemma bulk_of_one_user_witness :
  let userIds := ["user123"; "user123"] in
  let schedule := replicate 12 0%nat in
  ∃ o w' t,
    bulkProcessUserMetrics collaborators service userIds None schedule
      (world [] true) = Some (o, w', t)
    ∧ w' = (run collaborators (calculateEngagementMetrics service "user123" None)
              (world [] true)).1.2.
Proof.
  intros userIds schedule.
  destruct (bulkProcessUserMetrics collaborators service userIds None schedule
              (world [] true)) as [[[o w'] t]|] eqn:Hbulk.
  - exists o, w', t. split; [reflexivity|].
    assert (Hne : userIds ≠ []) by discriminate.
    assert (Hall : ∀ u, u ∈ userIds → u = "user123").
    { intros u Hu. unfold userIds in Hu.
      rewrite !elem_of_cons, elem_of_nil in Hu. tauto. }
    pose proof (bulk_of_one_user collaborators service userIds "user123" None
                  schedule (world [] true) o w' t Hne Hall Hbulk) as H.
    destruct (run collaborators (calculateEngagementMetrics service "user123" None)
                (world [] true)) as [[o1 w1] t1].
    exact (proj1 H).
  - vm_compute in Hbulk. discriminate Hbulk.
Defined.

(** X19 on the third attempt with a jitter of 50 ms. *)
Lemma retryStrategy_bounds_witness :
  50 * 2 ^ 3 ≤ retryStrategy (1 # 2) 3 ≤ 50 * 2 ^ 3 + 100.
Proof.
  assert (H0 : (0 <= 1 # 2)%Q) by (unfold Qle; simpl; lia).
  assert (H1 : (1 # 2 < 1)%Q) by (unfold Qlt; simpl; lia).
  apply (proj1 (proj2 (retryStrategy_bounds (1 # 2) 3 H0 H1))). lia.
Defined.
End FurtherExamples.
